(** * A shallow embedding of [SED/run_SED_fit.py]

    The script prepares the data directory of a Fermi-LAT run, resolves the
    time window, writes a fermipy configuration and drives a [GTAnalysis]
    session.  The embedding follows the source function by function:

    - Python's numbers ([emin], MJD and MET values) are rationals [Q]: the
      floating-point rounding of the source is not modelled;
    - the data directory is an association list from file names to file
      contents, in [os.listdir] order;
    - the configuration document is a two-level [gmap] (YAML sections and
      their keys) with YAML leaves;
    - the fermipy engine is an opaque collaborator: each call made on the
      [GTAnalysis] object is recorded in an effect log, together with the
      file-system effects of the script;
    - the script runs in a state-and-error monad [M]; an [err] is either an
      exception raised by one of the script's own [raise] statements
      ([Raised]) or one raised inside a builtin or library call and
      propagated unhandled ([Propagated]).

    [print] calls only write log lines to stdout and are not modelled. *)

From Stdlib Require Import QArith Qround Qminmax ZArith List String Ascii Lia Lqa.
From stdpp Require Import base gmap strings list pretty.

Open Scope string_scope.
Set Warnings "-register-all".

(* ------------------------------------------------------------------ *)
(** ** Errors *)

(** The exceptions the script itself raises: one [raise] statement, in
    [setup_data_files]. *)
Inductive local_error :=
| NoSpacecraftFile.

(** Exceptions raised inside builtins and libraries. *)
Inductive lib_error :=
| FormatValueError   (* str.format: unknown format code 'f' for a str *)
| EmptyReduction     (* np.min / np.max of an empty list *)
| KeyError           (* missing dict key or FITS header keyword *)
| IndexError         (* str.format: too few positional arguments *)
| TypeError          (* item assignment on a non-dict YAML node *)
| AttributeError     (* .split on a non-string YAML node *)
| FitsOpenError      (* pyfits.open on a file that is not FITS *)
| UnboundConfig.     (* [config] unbound after a caught YAMLError *)

Inductive err :=
| Raised (e : local_error)
| Propagated (e : lib_error).

(* ------------------------------------------------------------------ *)
(** ** Strings and paths *)

(** [s.replace(a, b)] for one-character [a] and [b]. *)
Fixpoint str_replace_char (a b : ascii) (s : string) : string :=
  match s with
  | EmptyString => EmptyString
  | String c r => String (if Ascii.eqb c a then b else c) (str_replace_char a b r)
  end.

(** Python's [pat in s] on strings. *)
Fixpoint str_contains (pat s : string) : bool :=
  String.prefix pat s ||
  match s with
  | EmptyString => false
  | String _ r => str_contains pat r
  end.

Fixpoint str_last_char (s : string) : option ascii :=
  match s with
  | EmptyString => None
  | String c EmptyString => Some c
  | String _ r => str_last_char r
  end.

(** [s.split('/')[-1]]: the text after the last ['/']. *)
Fixpoint last_component_from (acc s : string) : string :=
  match s with
  | EmptyString => acc
  | String c r =>
      if Ascii.eqb c "/"%char then last_component_from "" r
      else last_component_from (acc ++ String c "") r
  end.

Definition split_last (s : string) : string := last_component_from "" s.

(** [os.path.join(a, b)] (posixpath). *)
Definition path_join (a b : string) : string :=
  if String.prefix "/" b then b
  else if String.eqb a "" then a ++ b
  else match str_last_char a with
       | Some c => if Ascii.eqb c "/"%char then a ++ b else a ++ "/" ++ b
       | None => a ++ b
       end.

(** ["\n".join(l)] *)
Definition newline_join (l : list string) : string :=
  String.concat (String (Ascii.ascii_of_nat 10) "") l.

(* ------------------------------------------------------------------ *)
(** ** Files, effects and the monad *)

(** A file of the data directory: a FITS file, with the [TSTART] and
    [TSTOP] keywords of its HDU 1 header when present, or any other file. *)
Inductive entry :=
| FitsFile (tstart tstop : option Q)
| TextFile (contents : string).

(** Leaves of the YAML document. *)
Inductive yval :=
| YNum (q : Q)
| YStr (s : string)
| YBool (b : bool)
| YNull
| YList (l : list yval)
| YMap (l : list (string * yval)).

(** A top-level YAML value: a mapping (a section such as [selection]) or
    a leaf. *)
Inductive tval :=
| TDict (d : gmap string yval)
| TLeaf (v : yval).

Abbreviation config := (gmap string tval) (only parsing).

(** [minmax_ts=[2, None]] *)
Definition ts_bounds : Type := option Q * option Q.

(** Calls made on the fermipy engine. *)
Inductive call :=
| GTAnalysis (config_path : string) (verbosity : Z)
| Setup
| FreeSources (distance : Q) (minmax_ts : ts_bounds) (exclude : list string)
| FreeSource (name : string) (pars : option string) (free : bool)
| SetParameter (name : string) (par : string) (value : Q)
| Optimize
| Fit (retries : Z)
| WriteRoi (outfile : string)
| Bowtie (name : string)
| Sed (name : string) (outfile : string) (loge_bins : list Q)
      (free_pars : option string) (free_radius : option Q).

Inductive effect :=
| WriteText (path contents : string)
| RenameFile (src dst : string)
| MakeDirs (path : string)
| DumpYaml (path : string) (cfg : config)
| Engine (c : call)
| SaveNpy (path : string).

(** The state: the contents of the data directory [args['data_path']] and
    the log of effects so far (oldest first). *)
Record st := mkSt {
  st_dir : list (string * entry);
  st_log : list effect
}.

Definition M (A : Type) : Type := st -> (err + A) * st.

Definition retM {A} (a : A) : M A := fun s => (inr a, s).
Definition throw {A} (e : err) : M A := fun s => (inl e, s).
Definition bindM {A B} (m : M A) (k : A -> M B) : M B :=
  fun s => match m s with
           | (inl e, s') => (inl e, s')
           | (inr a, s') => k a s'
           end.

Notation "'let*' x := m 'in' k" := (bindM m (fun x => k))
  (at level 200, x name, m at level 100, k at level 200).

(** A builtin or library call whose exception propagates. *)
Definition liftL {A} (r : lib_error + A) : M A :=
  match r with inl e => throw (Propagated e) | inr a => retM a end.

Definition emit (e : effect) : M unit :=
  fun s => (inr tt, mkSt (st_dir s) (st_log s ++ [e])).

Definition engine (c : call) : M unit := emit (Engine c).

(** [os.listdir(folder)] *)
Definition listdir : M (list string) := fun s => (inr (map fst (st_dir s)), s).

(** Opening [open(os.path.join(folder, name), 'w+')] and writing. *)
Definition write_text (folder name contents : string) : M unit :=
  fun s =>
    let d := List.filter (fun p => negb (String.eqb (fst p) name)) (st_dir s) in
    (inr tt, mkSt (d ++ [(name, TextFile contents)])
                  (st_log s ++ [WriteText (path_join folder name) contents])).

(** [os.rename(os.path.join(folder, a), os.path.join(folder, b))]: the
    target, if present, is replaced (POSIX rename). *)
Definition rename_file (folder a b : string) : M unit :=
  fun s =>
    let d := List.filter (fun p => negb (String.eqb (fst p) b)) (st_dir s) in
    let d' := map (fun p => if String.eqb (fst p) a then (b, snd p) else p) d in
    (inr tt, mkSt d' (st_log s ++ [RenameFile (path_join folder a) (path_join folder b)])).

(* ------------------------------------------------------------------ *)
(** ** [setup_data_files] (lines 11-24) *)

Definition setup_data_files (folder : string) : M unit :=
  let* files := listdir in
  let* _ :=
    (if negb (bool_decide ("events.txt" ∈ files)) then
       let ph_files := map (path_join folder) (List.filter (str_contains "PH") files) in
       write_text folder "events.txt" (newline_join ph_files)
     else retM tt) in
  if negb (bool_decide ("spacecraft.fits" ∈ files)) then
    let sc_files := List.filter (str_contains "SC") files in
    match sc_files with
    | [f] => rename_file folder f "spacecraft.fits"
    | _ => throw (Raised NoSpacecraftFile)
    end
  else retM tt.

(* ------------------------------------------------------------------ *)
(** ** [get_time_window] (lines 27-36) *)

(** [x = fits.open(...); x[1].header['TSTART']] and [['TSTOP']]. *)
Definition header_tstart (e : entry) : lib_error + Q :=
  match e with
  | FitsFile (Some t) _ => inr t
  | FitsFile None _ => inl KeyError
  | TextFile _ => inl FitsOpenError
  end.

Definition header_tstop (e : entry) : lib_error + Q :=
  match e with
  | FitsFile _ (Some t) => inr t
  | FitsFile _ None => inl KeyError
  | TextFile _ => inl FitsOpenError
  end.

(** The loop of lines 32-35, collecting [tmin] and [tmax] in file order. *)
Fixpoint collect_headers (fs : list (string * entry)) : lib_error + (list Q * list Q) :=
  match fs with
  | [] => inr ([], [])
  | (_, e) :: r =>
      match header_tstart e with
      | inl x => inl x
      | inr a =>
          match header_tstop e with
          | inl x => inl x
          | inr b =>
              match collect_headers r with
              | inl x => inl x
              | inr (l1, l2) => inr (a :: l1, b :: l2)
              end
          end
      end
  end.

(** [np.min] and [np.max] of a list of floats. *)
Definition np_min (l : list Q) : lib_error + Q :=
  match l with
  | [] => inl EmptyReduction
  | x :: r => inr (fold_left Qmin r x)
  end.

Definition np_max (l : list Q) : lib_error + Q :=
  match l with
  | [] => inl EmptyReduction
  | x :: r => inr (fold_left Qmax r x)
  end.

Definition get_time_window (folder : string) : M (Q * Q) :=
  fun s =>
    let files := List.filter (fun p => str_contains "PH" (fst p)) (st_dir s) in
    let r : lib_error + (Q * Q) :=
      match collect_headers files with
      | inl e => inl e
      | inr (tmin, tmax) =>
          match np_min tmin with
          | inl e => inl e
          | inr a => match np_max tmax with
                     | inl e => inl e
                     | inr b => inr (a, b)
                     end
          end
      end in
    (match r with inl e => inl (Propagated e) | inr x => inr x end, s).

(* ------------------------------------------------------------------ *)
(** ** Time conversions (lines 39-49) *)

Definition MJDREF : Q := (51910 + Qmake 7428703703703703 (10 ^ 19))%Q.

Definition MJD_to_MET (mjd_time : Q) : Q := ((mjd_time - MJDREF) * 86400)%Q.

Definition MET_to_MJD (met_time : Q) : Q := (met_time / 86400 + MJDREF)%Q.

(* ------------------------------------------------------------------ *)
(** ** Run arguments and the world outside the data directory *)

(** The dictionary returned by [parseArguments()]. *)
Record args := mkArgs {
  target_src : string;
  emin : Q;
  emax : Q;
  time_range : option (Q * Q);
  data_path : string;
  xml_path : option string;
  use_3FGL : bool;
  free_radius : option Q;
  free_sources : option (list string);
  src_gamma : option Q;
  free_norm : bool;
  free_diff : bool;
  retries : Z;
  outfolder : option string;
  no_sed : bool
}.

(** What the script reads besides the data directory: its own directory
    [this_path], the template [default.yaml] found there ([None] when
    [yaml.load] raises a [YAMLError], which the script catches and prints),
    and whether a path already exists. *)
Record world := mkWorld {
  this_path : string;
  template : option config;
  path_exists : string -> bool
}.

(** [int(x)] on a float: truncation towards zero. *)
Definition py_int (q : Q) : Z := Z.quot (Qnum q) (Zpos (Qden q)).

(* ------------------------------------------------------------------ *)
(** ** [str.format] *)

Inductive pyval :=
| PStr (s : string)
| PFloat (q : Q)
| PInt (z : Z).

(** The pieces of a format string: literal text, a ['{:.0f}'] field and a
    ['{}'] field.  Fields take the positional arguments left to right. *)
Inductive fmt_piece :=
| Lit (s : string)
| FieldFixed0
| FieldPlain.

(** Round half to even, as ['{:.0f}'] does. *)
Definition round_half_even (q : Q) : Z :=
  let f := Qfloor q in
  let d := (q - inject_Z f)%Q in
  if negb (Qle_bool (1 # 2) d) then f
  else if negb (Qle_bool d (1 # 2)) then (f + 1)%Z
  else if Z.even f then f else (f + 1)%Z.

Definition render_fixed0 (q : Q) : string :=
  let z := round_half_even q in
  if negb (Qle_bool 0 q) && Z.eqb z 0 then "-0" else pretty z.

Section Format.
(** [str()] of a Python float (its shortest round-tripping decimal form);
    the printing of binary floats is outside the model. *)
Variable float_repr : Q -> string.

(** One field: the format code ['f'] is unknown for a [str] object. *)
Definition format_field (p : fmt_piece) (v : pyval) : lib_error + string :=
  match p, v with
  | FieldFixed0, PStr _ => inl FormatValueError
  | FieldFixed0, PFloat q => inr (render_fixed0 q)
  | FieldFixed0, PInt z => inr (pretty z)
  | _, PStr s => inr s
  | _, PFloat q => inr (float_repr q)
  | _, PInt z => inr (pretty z)
  end.

(** [fmt.format(vals...)]: fields are processed left to right and the first
    failing one raises; unused trailing arguments are ignored. *)
Fixpoint py_format (pieces : list fmt_piece) (vals : list pyval) : lib_error + string :=
  match pieces with
  | [] => inr ""
  | Lit s :: r =>
      match py_format r vals with
      | inl e => inl e
      | inr t => inr (s ++ t)
      end
  | p :: r =>
      match vals with
      | [] => inl IndexError
      | v :: vs =>
          match format_field p v with
          | inl e => inl e
          | inr s =>
              match py_format r vs with
              | inl e => inl e
              | inr t => inr (s ++ t)
              end
          end
      end
  end.

End Format.

(** ['{:.0f}_{:.0f}/{}_{}/'] of lines 70-74. *)
Definition basepath_fmt : list fmt_piece :=
  [FieldFixed0; Lit "_"; FieldFixed0; Lit "/"; FieldPlain; Lit "_"; FieldPlain; Lit "/"].

(* ------------------------------------------------------------------ *)
(** ** The configuration document (lines 83-103) *)

Notation "'let?' x := m 'in' k" :=
  (match m with inl e => inl e | inr x => k end)
  (at level 200, x name, m at level 100, k at level 200).

(** [config[sec][key]] *)
Definition get_key (sec key : string) (cfg : config) : lib_error + yval :=
  match cfg !! sec with
  | None => inl KeyError
  | Some (TLeaf _) => inl TypeError
  | Some (TDict d) =>
      match d !! key with
      | None => inl KeyError
      | Some v => inr v
      end
  end.

(** [config[sec][key] = v]: the section must exist and be a mapping. *)
Definition set_key (sec key : string) (v : yval) (cfg : config) : lib_error + config :=
  match cfg !! sec with
  | None => inl KeyError
  | Some (TLeaf _) => inl TypeError
  | Some (TDict d) => inr (<[sec := TDict (<[key := v]> d)]> cfg)
  end.

(** [config[sec][key].append(v)] *)
Definition append_key (sec key : string) (v : yval) (cfg : config) : lib_error + config :=
  let? l := get_key sec key cfg in
  match l with
  | YList xs => set_key sec key (YList (xs ++ [v])) cfg
  | _ => inl AttributeError
  end.

(** [path.split('/')[-1]] on a YAML node. *)
Definition yaml_split_last (v : yval) : lib_error + string :=
  match v with
  | YStr s => inr (split_last s)
  | _ => inl AttributeError
  end.

(** Lines 88-101: the overlay of the run's values on the loaded template. *)
Definition update_config (config : config) (a : args) (tmin tmax : Q) (src : string)
  : lib_error + gmap string tval :=
  let? c := set_key "selection" "emin" (YNum (emin a)) config in
  let? c := set_key "selection" "emax" (YNum (emax a)) c in
  let? c := set_key "selection" "tmin" (YNum tmin) c in
  let? c := set_key "selection" "tmax" (YNum tmax) c in
  let? c := set_key "selection" "target" (YStr src) c in
  let? ev := get_key "data" "evfile" c in
  let? evb := yaml_split_last ev in
  let? c := set_key "data" "evfile" (YStr (path_join (data_path a) evb)) c in
  let? sc := get_key "data" "scfile" c in
  let? scb := yaml_split_last sc in
  let? c := set_key "data" "scfile" (YStr (path_join (data_path a) scb)) c in
  let? c := set_key "model" "catalogs" (YList []) c in
  let? c := match xml_path a with
            | Some x => append_key "model" "catalogs" (YStr x) c
            | None => inr c
            end in
  if use_3FGL a then append_key "model" "catalogs" (YStr "3FGL") c else inr c.

(* ------------------------------------------------------------------ *)
(** ** [np.arange] *)

(** [np.arange(start, stop, step)]: [ceil((stop - start) / step)] values
    [start + i * step]; the stop value is excluded. *)
Definition arange (start stop step : Q) : list Q :=
  map (fun i => (start + inject_Z (Z.of_nat i) * step)%Q)
      (seq 0 (Z.to_nat (Qceiling ((stop - start) / step)))).

(* ------------------------------------------------------------------ *)
(** ** [run_fit] (lines 52-158) *)

Section RunFit.

(** [np.log10] and [str()] on floats: floating-point primitives that the
    model takes as parameters. *)
Variable log10 : Q -> Q.
Variable float_repr : Q -> string.

(** Lines 59-65. *)
Definition resolve_time_window (a : args) : M (Q * Q) :=
  match time_range a with
  | Some (t0, t1) => retM (MJD_to_MET t0, MJD_to_MET t1)
  | None => get_time_window (data_path a)
  end.

(** Lines 67-75. *)
Definition resolve_basepath (w : world) (a : args) (tmin tmax : Q) : M string :=
  match outfolder a with
  | Some p => retM p
  | None =>
      let* b := liftL (py_format float_repr basepath_fmt
                         [PStr (target_src a); PFloat (MET_to_MJD tmin);
                          PFloat (MET_to_MJD tmax);
                          PInt (py_int (emin a)); PInt (py_int (emax a))]) in
      retM (path_join (this_path w) b)
  end.

(** Lines 83-87: [config] is unbound when the YAML error was caught. *)
Definition load_template (w : world) : M config :=
  match template w with
  | Some c => retM c
  | None => throw (Propagated UnboundConfig)
  end.

Fixpoint iterM {A} (f : A -> M unit) (l : list A) : M unit :=
  match l with
  | [] => retM tt
  | x :: r => let* _ := f x in iterM f r
  end.

(** Lines 111-119; [gta.free_source(name)] has [pars=None, free=True]. *)
Definition free_neighbours (a : args) : M unit :=
  match free_radius a with
  | Some r => engine (FreeSources r (Some 2%Q, None) ["isodiff"; "galdiff"])
  | None =>
      match free_sources a with
      | Some l => iterM (fun k => engine (FreeSource k None true)) l
      | None => retM tt
      end
  end.

(** Lines 121-133; returns [free_pars]. *)
Definition configure_target (a : args) (src : string) : M (option string) :=
  let* free_pars :=
    match src_gamma a with
    | Some g => let* _ := engine (SetParameter src "Index" g) in retM (Some "norm")
    | None =>
        if free_norm a then retM (Some "norm")
        else let* _ := engine Optimize in retM None
    end in
  let* _ := engine (FreeSource src None false) in
  let* _ := engine (FreeSource src free_pars true) in
  retM free_pars.

(** Lines 136-139. *)
Definition free_diffuse (a : args) : M unit :=
  if free_diff a then
    let* _ := engine (FreeSource "galdiff" (Some "norm") true) in
    engine (FreeSource "isodiff" (Some "norm") true)
  else retM tt.

(** ['_emin_{}_emax_{}'] with [int(emin), int(emax)]. *)
Definition energy_tag (a : args) : string :=
  "_emin_" ++ pretty (py_int (emin a)) ++ "_emax_" ++ pretty (py_int (emax a)).

(** Lines 155-156. *)
Definition sed_loge_bins (e0 e1 : Q) : list Q := arange (log10 e0) (log10 e1) (1 # 2).

Definition run_fit (w : world) (a : args) : M unit :=
  let src := str_replace_char "_" " " (target_src a) in
  let* tw := resolve_time_window a in
  let '(tmin, tmax) := tw in
  let* basepath := resolve_basepath w a tmin tmax in
  let* _ := setup_data_files (data_path a) in
  let* _ := (if path_exists w basepath then retM tt else emit (MakeDirs basepath)) in
  let config_path := path_join basepath "config.yaml" in
  let* tmpl := load_template w in
  let* cfg := liftL (update_config tmpl a tmin tmax src) in
  let* _ := emit (DumpYaml config_path cfg) in
  let* _ := engine (GTAnalysis (path_join basepath "config.yaml") 3) in
  let* _ := engine Setup in
  let* _ := free_neighbours a in
  let* free_pars := configure_target a src in
  let* _ := free_diffuse a in
  let* _ := engine (Fit (retries a)) in
  let* _ := engine (WriteRoi ("llh" ++ energy_tag a ++ ".npy")) in
  let* _ := engine (Bowtie src) in
  let* _ := emit (SaveNpy (path_join basepath ("bowtie" ++ energy_tag a ++ ".npy"))) in
  if negb (no_sed a) then
    engine (Sed src ("sed" ++ energy_tag a ++ ".fits") (sed_loge_bins (emin a) (emax a))
                free_pars (free_radius a))
  else retM tt.

End RunFit.

(* ------------------------------------------------------------------ *)
(** ** Free flags of the engine's model

    [gta.free_source(name, free=True, pars=None)] frees ([free=True]) or
    fixes ([free=False]) the parameters of [name] selected by [pars]:
    [None] selects the normalization and the shape parameters of the
    source's spectral model, ['norm'] the normalization parameters only.
    This interprets the calls [run_fit] makes while configuring the target;
    [set_parameter] and [optimize] leave the free flags as they are. *)

Section FreeFlags.

(** fermipy's [norm_parameters] and [shape_parameters] for the spectral
    type of each source of the model. *)
Variable norm_pars shape_pars : string -> list string.

Definition free_flags : Type := string -> string -> bool.

(** [None] when fermipy raises ['Invalid parameter list.'] *)
Definition selected_pars (name : string) (pars : option string) : option (list string) :=
  match pars with
  | None => Some (norm_pars name ++ shape_pars name)%list
  | Some p =>
      if String.eqb p "norm" then Some (norm_pars name)
      else if String.eqb p "shape" then Some (shape_pars name)
      else if String.eqb p "spectral" then Some (norm_pars name ++ shape_pars name)%list
      else None
  end.

Definition apply_call (fl : free_flags) (c : call) : option free_flags :=
  match c with
  | FreeSource n pars fr =>
      match selected_pars n pars with
      | Some ps =>
          Some (fun m q => if String.eqb m n && bool_decide (q ∈ ps) then fr else fl m q)
      | None => None
      end
  | SetParameter _ _ _ => Some fl
  | Optimize => Some fl
  | _ => None
  end.

Fixpoint apply_calls (fl : free_flags) (cs : list call) : option free_flags :=
  match cs with
  | [] => Some fl
  | c :: r => match apply_call fl c with
              | Some fl' => apply_calls fl' r
              | None => None
              end
  end.

(** The free spectral parameters of [name]. *)
Definition free_pars_of (fl : free_flags) (name : string) : list string :=
  List.filter (fl name) (norm_pars name ++ shape_pars name)%list.

End FreeFlags.

(** The engine calls recorded in a log. *)
Fixpoint engine_calls (l : list effect) : list call :=
  match l with
  | [] => []
  | Engine c :: r => c :: engine_calls r
  | _ :: r => engine_calls r
  end.

(* ------------------------------------------------------------------ *)
(** ** Reasoning about the effect log *)

(** [m] only appends effects satisfying [P] to the log, and each result it
    returns satisfies [R]. *)
Definition hoare {A} (P : effect -> Prop) (R : A -> Prop) (m : M A) : Prop :=
  forall s, let '(r, s') := m s in
    (exists L, st_log s' = (st_log s ++ L)%list /\ Forall P L) /\
    (forall x, r = inr x -> R x).

(** Every exception of the script's own that [m] raises is one raised by
    [setup_data_files folder]. *)
Definition raises_via_setup {A} (folder : string) (m : M A) : Prop :=
  forall s e, fst (m s) = inl (Raised e) ->
    exists s1, fst (setup_data_files folder s1) = inl (Raised e).

(** The effects whose names are checked by claim C10: the target is named
    by its underscore-free form. *)
Definition names_ok (a : args) (e : effect) : Prop :=
  let src := str_replace_char "_" " " (target_src a) in
  match e with
  | Engine (SetParameter n _ _) => n = src
  | Engine (Bowtie n) => n = src
  | Engine (Sed n _ _ _ _) => n = src
  | Engine (FreeSource n _ _) =>
      n = src \/ (exists l, free_sources a = Some l /\ In n l) \/
      n = "galdiff" \/ n = "isodiff"
  | DumpYaml _ c => get_key "selection" "target" c = inr (YStr src)
  | _ => True
  end.

(** The persisted configuration is the template updated by
    [update_config] with the resolved time window. *)
Definition dump_ok (w : world) (a : args) (e : effect) : Prop :=
  match e with
  | DumpYaml _ c =>
      exists tmpl tmin tmax,
        template w = Some tmpl /\
        update_config tmpl a tmin tmax (str_replace_char "_" " " (target_src a)) = inr c /\
        match time_range a with
        | Some (x, y) => tmin = MJD_to_MET x /\ tmax = MJD_to_MET y
        | None => True
        end
  | _ => True
  end.

(** Replacing fields of the arguments. *)
Definition with_target_src (a : args) (t : string) : args :=
  mkArgs t (emin a) (emax a) (time_range a) (data_path a) (xml_path a) (use_3FGL a)
         (free_radius a) (free_sources a) (src_gamma a) (free_norm a) (free_diff a)
         (retries a) (outfolder a) (no_sed a).

Definition with_free_sources (a : args) (l : option (list string)) : args :=
  mkArgs (target_src a) (emin a) (emax a) (time_range a) (data_path a) (xml_path a)
         (use_3FGL a) (free_radius a) l (src_gamma a) (free_norm a) (free_diff a)
         (retries a) (outfolder a) (no_sed a).

(** [config[sec][key]] as an option: [None] when it raises. *)
Definition lk (c : config) (sec key : string) : option yval :=
  match c !! sec with
  | Some (TDict d) => d !! key
  | _ => None
  end.

Definition is_section (c : config) (sec : string) : Prop :=
  exists d, c !! sec = Some (TDict d).

(** The catalog list of lines 97-101. *)
Definition catalogs_of (a : args) : list yval :=
  (match xml_path a with Some x => [YStr x] | None => [] end ++
   if use_3FGL a then [YStr "3FGL"] else [])%list.

(** The keys that lines 88-101 overwrite. *)
Definition modified_keys : list (string * string) :=
  [("selection", "emin"); ("selection", "emax"); ("selection", "tmin");
   ("selection", "tmax"); ("selection", "target");
   ("data", "evfile"); ("data", "scfile"); ("model", "catalogs")].

(* ------------------------------------------------------------------ *)
(** ** A concrete run

    The scenario of the spec: target [Crab_Nebula], 100 MeV to 100 GeV,
    MJD 55000 to 55010, no catalogs, output folder [out]. *)

(** The exponent [k] when [n = 10 ^ k]. *)
Fixpoint pow10_exponent (fuel : nat) (n : Z) : option Z :=
  match fuel with
  | O => None
  | S f =>
      if Z.eqb n 1 then Some 0%Z
      else if Z.eqb (Z.modulo n 10) 0 && Z.ltb 1 n then
        match pow10_exponent f (Z.div n 10) with
        | Some k => Some (k + 1)%Z
        | None => None
        end
      else None
  end.

(** [np.log10] on the integer powers of ten, where the float result is
    exact; the runs below only take it there (other inputs give 0). *)
Definition log10_pow10 (q : Q) : Q :=
  match pow10_exponent 64 (Qnum q) with
  | Some k => if Pos.eqb (Qden q) 1 then inject_Z k else 0%Q
  | None => 0%Q
  end.

Definition scenario_template : config :=
  <["selection" := TDict (<["emin" := YNum 1000]> (<["zmax" := YNum 90]> ∅))]>
  (<["data" := TDict (<["evfile" := YStr "/fermi/data/events.txt"]>
                     (<["scfile" := YStr "/fermi/data/spacecraft.fits"]> ∅))]>
  (<["model" := TDict (<["galdiff" := YStr "gll_iem_v06.fits"]> ∅)]>
  (<["fileio" := TDict (<["outdir" := YNull]> ∅)]> ∅))).

Definition scenario_world : world :=
  mkWorld "/home/user/Fermi_Tools/SED" (Some scenario_template) (fun _ => false).

Definition scenario_args : args :=
  mkArgs "Crab_Nebula" 100 100000 (Some (55000, 55010)%Q) "/data/crab" None false
         None None None false false 3 (Some "out") false.

Definition scenario_state : st :=
  mkSt [("L1_PH00.fits", FitsFile (Some 300000000%Q) (Some 300500000%Q));
        ("L1_PH01.fits", FitsFile (Some 299000000%Q) (Some 300100000%Q));
        ("L1_SC00.fits", FitsFile None None)] [].

Definition scenario_run : (err + unit) * st :=
  run_fit log10_pow10 (fun _ => "") scenario_world scenario_args scenario_state.

(** The configuration the scenario run persists. *)
Definition scenario_config : config :=
  match update_config scenario_template scenario_args (MJD_to_MET 55000) (MJD_to_MET 55010)
          "Crab Nebula" with
  | inr c => c
  | inl _ => ∅
  end.

(** fermipy's [PowerLaw]: normalization [Prefactor], shape [Index]. *)
Definition powerlaw_norm (_ : string) : list string := ["Prefactor"].
Definition powerlaw_shape (_ : string) : list string := ["Index"].


(* ================================================================== *)
(** * Proofs *)

(** ** Monad and log lemmas *)

Lemma hoare_ret {A} (P : effect -> Prop) (x : A) : hoare P (fun y => y = x) (retM x).
Proof.
  intros s; simpl; split.
  - exists []; rewrite app_nil_r; auto.
  - intros y H; inversion H; auto.
Qed.

Lemma hoare_throw {A} (P : effect -> Prop) (R : A -> Prop) e : hoare P R (throw e).
Proof.
  intros s; simpl; split.
  - exists []; rewrite app_nil_r; auto.
  - discriminate.
Qed.

Lemma hoare_emit (P : effect -> Prop) e : P e -> hoare P (fun _ => True) (emit e).
Proof. intros HP s; simpl; split; eauto. Qed.

Lemma hoare_engine (P : effect -> Prop) c : P (Engine c) -> hoare P (fun _ => True) (engine c).
Proof. apply hoare_emit. Qed.

Lemma hoare_bind {A B} (P : effect -> Prop) (R : A -> Prop) (R' : B -> Prop)
      (m : M A) (k : A -> M B) :
  hoare P R m -> (forall x, R x -> hoare P R' (k x)) -> hoare P R' (bindM m k).
Proof.
  intros Hm Hk s; unfold bindM.
  specialize (Hm s); destruct (m s) as [[e|x] s1].
  - destruct Hm as [HL _]; split; [exact HL | discriminate].
  - destruct Hm as [[L [HL HF]] HR].
    specialize (Hk x (HR x eq_refl) s1); destruct (k x s1) as [r s2].
    destruct Hk as [[L2 [HL2 HF2]] HR2]; split; [|exact HR2].
    exists (L ++ L2)%list; rewrite HL2, HL, app_assoc; split; auto.
    apply Forall_app; auto.
Qed.

Lemma hoare_post {A} (P : effect -> Prop) (R R' : A -> Prop) m :
  hoare P R m -> (forall x, R x -> R' x) -> hoare P R' m.
Proof.
  intros H HR s; specialize (H s); destruct (m s) as [r s'].
  destruct H as [HL HR0]; split; auto.
Qed.

Lemma hoare_effects {A} (P P' : effect -> Prop) (R : A -> Prop) m :
  hoare P R m -> (forall e, P e -> P' e) -> hoare P' R m.
Proof.
  intros H HP s; specialize (H s); destruct (m s) as [r s'].
  destruct H as [[L [HL HF]] HR]; split; auto.
  exists L; split; auto; eapply Forall_impl; eauto.
Qed.

Lemma hoare_liftL {A} (P : effect -> Prop) (r : lib_error + A) :
  hoare P (fun x => r = inr x) (liftL r).
Proof.
  destruct r as [e|x]; unfold liftL.
  - apply hoare_throw.
  - eapply hoare_post; [apply hoare_ret|]; cbv beta; intros ? ->; reflexivity.
Qed.

Lemma hoare_listdir (P : effect -> Prop) : hoare P (fun _ => True) listdir.
Proof. intros s; simpl; split; auto; exists []; rewrite app_nil_r; auto. Qed.

Lemma hoare_get_time_window (P : effect -> Prop) f : hoare P (fun _ => True) (get_time_window f).
Proof. intros s; simpl; split; auto; exists []; rewrite app_nil_r; auto. Qed.

Lemma hoare_iterM {A} (P : effect -> Prop) (f : A -> M unit) l :
  (forall x, In x l -> hoare P (fun _ => True) (f x)) -> hoare P (fun _ => True) (iterM f l).
Proof.
  induction l as [|x r IH]; intros H; simpl.
  - eapply hoare_post; [apply hoare_ret|]; auto.
  - eapply hoare_bind; [apply H; left; auto|].
    intros _ _; apply IH; intros y Hy; apply H; right; auto.
Qed.

Lemma hoare_write_text (P : effect -> Prop) f n c :
  P (WriteText (path_join f n) c) -> hoare P (fun _ => True) (write_text f n c).
Proof. intros HP s; unfold write_text; split; [exists [WriteText (path_join f n) c]|]; auto. Qed.

Lemma hoare_rename_file (P : effect -> Prop) f x y :
  P (RenameFile (path_join f x) (path_join f y)) -> hoare P (fun _ => True) (rename_file f x y).
Proof.
  intros HP s; unfold rename_file; split;
    [exists [RenameFile (path_join f x) (path_join f y)]|]; auto.
Qed.

Lemma hoare_setup (P : effect -> Prop) folder :
  (forall p c, P (WriteText p c)) -> (forall x y, P (RenameFile x y)) ->
  hoare P (fun _ => True) (setup_data_files folder).
Proof.
  intros HW HR; unfold setup_data_files.
  eapply hoare_bind; [apply hoare_listdir|]; intros files _.
  eapply hoare_bind.
  - destruct (negb _).
    + apply hoare_write_text; auto.
    + eapply hoare_post; [apply hoare_ret|]; auto.
  - intros _ _; destruct (negb _).
    + destruct (List.filter _ _) as [|f [|g r]].
      * apply hoare_throw.
      * apply hoare_rename_file; auto.
      * apply hoare_throw.
    + eapply hoare_post; [apply hoare_ret|]; auto.
Qed.

(** ** The configuration overlay *)

Lemma set_key_inv sec key v (c c' : config) :
  set_key sec key v c = inr c' ->
  exists d, c !! sec = Some (TDict d) /\ c' = <[sec := TDict (<[key := v]> d)]> c.
Proof.
  unfold set_key; destruct (c !! sec) as [[d|y]|] eqn:E; try discriminate.
  intros H; inversion H; eauto.
Qed.

Lemma get_key_inv sec key v (c : config) :
  get_key sec key c = inr v -> lk c sec key = Some v /\ is_section c sec.
Proof.
  unfold get_key, lk, is_section; destruct (c !! sec) as [[d|y]|] eqn:E; try discriminate.
  destruct (d !! key) eqn:E2; try discriminate.
  intros H; inversion H; subst; eauto.
Qed.

Lemma lk_set_key sec key v (c c' : config) :
  set_key sec key v c = inr c' ->
  (forall s k, lk c' s k = if String.eqb s sec && String.eqb k key then Some v else lk c s k) /\
  (forall s, s <> sec -> c' !! s = c !! s) /\
  is_section c sec /\ is_section c' sec.
Proof.
  intros H; apply set_key_inv in H as [d [Hd ->]].
  split; [|split; [|split]].
  - intros s k; unfold lk.
    destruct (String.eqb_spec s sec) as [->|Hne].
    + rewrite lookup_insert_eq, Hd; cbn [andb].
      destruct (String.eqb_spec k key) as [->|Hk].
      * apply lookup_insert_eq.
      * apply lookup_insert_ne; congruence.
    + cbn [andb]; rewrite lookup_insert_ne; [reflexivity|congruence].
  - intros s Hs; apply lookup_insert_ne; congruence.
  - exists d; auto.
  - eexists; apply lookup_insert_eq.
Qed.

Lemma is_section_set_key sec key v (c c' : config) s :
  set_key sec key v c = inr c' -> is_section c s -> is_section c' s.
Proof.
  intros H [d Hd]; apply set_key_inv in H as [d0 [Hd0 ->]].
  unfold is_section; destruct (String.eqb_spec s sec) as [->|Hne].
  - eexists; apply lookup_insert_eq.
  - exists d; rewrite lookup_insert_ne; congruence.
Qed.

Lemma is_section_set_key_back sec key v (c c' : config) s :
  set_key sec key v c = inr c' -> is_section c' s -> is_section c s.
Proof.
  intros H [d Hd]; pose proof H as H'; apply set_key_inv in H as [d0 [Hd0 ->]].
  unfold is_section; destruct (String.eqb_spec s sec) as [->|Hne].
  - eauto.
  - exists d; rewrite lookup_insert_ne in Hd; congruence.
Qed.

Lemma append_key_inv sec key v (c c' : config) :
  append_key sec key v c = inr c' ->
  exists xs, lk c sec key = Some (YList xs) /\ set_key sec key (YList (xs ++ [v])%list) c = inr c'.
Proof.
  unfold append_key; destruct (get_key sec key c) as [e|l] eqn:E; try discriminate.
  apply get_key_inv in E as [E _].
  destruct l; try discriminate; eauto.
Qed.

Lemma yaml_split_last_inv v b : yaml_split_last v = inr b -> exists p, v = YStr p /\ b = split_last p.
Proof. destruct v; simpl; try discriminate; intros H; inversion H; eauto. Qed.

Lemma update_config_spec (tmpl : config) a tmin tmax src (cfg : config) :
  update_config tmpl a tmin tmax src = inr cfg ->
  is_section tmpl "selection" /\ is_section tmpl "data" /\ is_section tmpl "model" /\
  lk cfg "selection" "emin" = Some (YNum (emin a)) /\
  lk cfg "selection" "emax" = Some (YNum (emax a)) /\
  lk cfg "selection" "tmin" = Some (YNum tmin) /\
  lk cfg "selection" "tmax" = Some (YNum tmax) /\
  lk cfg "selection" "target" = Some (YStr src) /\
  (exists ev, lk tmpl "data" "evfile" = Some (YStr ev) /\
     lk cfg "data" "evfile" = Some (YStr (path_join (data_path a) (split_last ev)))) /\
  (exists sc, lk tmpl "data" "scfile" = Some (YStr sc) /\
     lk cfg "data" "scfile" = Some (YStr (path_join (data_path a) (split_last sc)))) /\
  lk cfg "model" "catalogs" = Some (YList (catalogs_of a)) /\
  (forall s k, (s, k) ∉ modified_keys -> lk cfg s k = lk tmpl s k) /\
  (forall s, s ∉ ["selection"; "data"; "model"] -> cfg !! s = tmpl !! s).
Proof.
  unfold update_config.
  destruct (set_key "selection" "emin" _ tmpl) as [|c1] eqn:E1; [discriminate|].
  destruct (set_key "selection" "emax" _ c1) as [|c2] eqn:E2; [discriminate|].
  destruct (set_key "selection" "tmin" _ c2) as [|c3] eqn:E3; [discriminate|].
  destruct (set_key "selection" "tmax" _ c3) as [|c4] eqn:E4; [discriminate|].
  destruct (set_key "selection" "target" _ c4) as [|c5] eqn:E5; [discriminate|].
  destruct (get_key "data" "evfile" c5) as [|ev] eqn:G1; [discriminate|].
  destruct (yaml_split_last ev) as [|evb] eqn:Y1; [discriminate|].
  destruct (set_key "data" "evfile" _ c5) as [|c6] eqn:E6; [discriminate|].
  destruct (get_key "data" "scfile" c6) as [|sc] eqn:G2; [discriminate|].
  destruct (yaml_split_last sc) as [|scb] eqn:Y2; [discriminate|].
  destruct (set_key "data" "scfile" _ c6) as [|c7] eqn:E7; [discriminate|].
  destruct (set_key "model" "catalogs" _ c7) as [|c8] eqn:E8; [discriminate|].
  apply yaml_split_last_inv in Y1 as [evp [-> ->]].
  apply yaml_split_last_inv in Y2 as [scp [-> ->]].
  apply get_key_inv in G1 as [G1 _]; apply get_key_inv in G2 as [G2 _].
  (* the catalogs: [] then the optional appends *)
  assert (Hc : exists c9, match xml_path a with
                          | Some x => append_key "model" "catalogs" (YStr x) c8
                          | None => inr c8 end = inr c9 /\
                   (forall s k, lk c9 s k =
                      if String.eqb s "model" && String.eqb k "catalogs"
                      then Some (YList (match xml_path a with Some x => [YStr x] | None => [] end))
                      else lk c8 s k) /\
                   (forall s, s <> "model" -> c9 !! s = c8 !! s) /\
                   (forall s, is_section c8 s -> is_section c9 s)).
  { destruct (xml_path a) as [x|].
    - destruct (append_key "model" "catalogs" (YStr x) c8) as [|c9] eqn:E9.
      + exfalso; pose proof E8 as [d8 [_ Hc8]]%set_key_inv.
        unfold append_key, get_key, set_key in E9; rewrite Hc8 in E9.
        rewrite !lookup_insert_eq in E9; discriminate.
      + exists c9; split; auto.
        apply append_key_inv in E9 as [xs [Hxs E9]].
        pose proof E8 as [L8 _]%lk_set_key. rewrite L8 in Hxs; simpl in Hxs.
        inversion Hxs; subst xs.
        pose proof E9 as [L9 [F9 [_ _]]]%lk_set_key.
        split; [|split].
        * intros s k; rewrite L9; reflexivity.
        * exact F9.
        * intros s; eapply is_section_set_key; eauto.
    - exists c8; repeat split; auto.
      intros s k; pose proof E8 as [L8 _]%lk_set_key; rewrite L8.
      destruct (String.eqb s "model" && String.eqb k "catalogs"); auto. }
  destruct Hc as [c9 [-> [L9 [F9 S9]]]].
  intros Hfin.
  assert (Hfin' : (forall s k, lk cfg s k =
                     if String.eqb s "model" && String.eqb k "catalogs"
                     then Some (YList (catalogs_of a)) else lk c9 s k) /\
                  (forall s, s <> "model" -> cfg !! s = c9 !! s) /\
                  (forall s, is_section c9 s -> is_section cfg s)).
  { unfold catalogs_of; destruct (use_3FGL a).
    - apply append_key_inv in Hfin as [xs [Hxs Hfin]].
      rewrite L9 in Hxs; simpl in Hxs; inversion Hxs; subst xs.
      pose proof Hfin as [L10 [F10 _]]%lk_set_key.
      split; [|split].
      + intros s k; rewrite L10; reflexivity.
      + exact F10.
      + intros s; eapply is_section_set_key; eauto.
    - inversion Hfin; subst cfg; rewrite app_nil_r; repeat split; auto.
      intros s k; rewrite L9; destruct (String.eqb s "model" && String.eqb k "catalogs"); auto. }
  clear Hfin; destruct Hfin' as [L10 [F10 S10]].
  pose proof E1 as [_ [_ [Ssel _]]]%lk_set_key.
  pose proof E6 as [_ [_ [Sdat _]]]%lk_set_key.
  pose proof E8 as [_ [_ [Smod _]]]%lk_set_key.
  assert (Sdat0 : is_section tmpl "data").
  { do 5 (eapply is_section_set_key_back; [eassumption|]); exact Sdat. }
  assert (Smod0 : is_section tmpl "model").
  { do 7 (eapply is_section_set_key_back; [eassumption|]); exact Smod. }
  pose proof E1 as [L1 [F1 _]]%lk_set_key; pose proof E2 as [L2 [F2 _]]%lk_set_key.
  pose proof E3 as [L3 [F3 _]]%lk_set_key; pose proof E4 as [L4 [F4 _]]%lk_set_key.
  pose proof E5 as [L5 [F5 _]]%lk_set_key; pose proof E6 as [L6 [F6 _]]%lk_set_key.
  pose proof E7 as [L7 [F7 _]]%lk_set_key; pose proof E8 as [L8 [F8 _]]%lk_set_key.
  assert (Hev : lk tmpl "data" "evfile" = Some (YStr evp)).
  { rewrite L5, L4, L3, L2, L1 in G1; exact G1. }
  assert (Hsc : lk tmpl "data" "scfile" = Some (YStr scp)).
  { rewrite L6, L5, L4, L3, L2, L1 in G2; exact G2. }
  split; [exact Ssel|]; split; [exact Sdat0|]; split; [exact Smod0|].
  repeat split.
  - rewrite L10, L9, L8, L7, L6, L5, L4, L3, L2, L1; reflexivity.
  - rewrite L10, L9, L8, L7, L6, L5, L4, L3, L2; reflexivity.
  - rewrite L10, L9, L8, L7, L6, L5, L4, L3; reflexivity.
  - rewrite L10, L9, L8, L7, L6, L5, L4; reflexivity.
  - rewrite L10, L9, L8, L7, L6, L5; reflexivity.
  - exists evp; split; auto; rewrite L10, L9, L8, L7, L6; reflexivity.
  - exists scp; split; auto; rewrite L10, L9, L8, L7; reflexivity.
  - rewrite L10; reflexivity.
  - intros s k Hnot.
    rewrite L10, L9, L8, L7, L6, L5, L4, L3, L2, L1.
    repeat (match goal with
            | |- context [String.eqb ?x ?y] =>
                is_var x; destruct (String.eqb_spec x y); [subst x|]
            end; cbn [andb]).
    all: simpl; try reflexivity.
    all: exfalso; apply Hnot; unfold modified_keys; set_solver.
  - intros s Hnot.
    assert (s <> "selection" /\ s <> "data" /\ s <> "model") as [N1 [N2 N3]]
      by (repeat split; intros ->; apply Hnot; set_solver).
    rewrite F10, F9, F8, F7, F6, F5, F4, F3, F2, F1 by assumption; reflexivity.
Qed.

Lemma get_key_of_lk sec key v (c : config) : lk c sec key = Some v -> get_key sec key c = inr v.
Proof.
  unfold lk, get_key; destruct (c !! sec) as [[d|y]|]; try discriminate.
  intros ->; reflexivity.
Qed.

(** ** The log of [run_fit] *)

Section RunFitLog.
Variables (log10 : Q -> Q) (float_repr : Q -> string) (w : world) (a : args).

Let P := fun e => names_ok a e /\ dump_ok w a e.

Lemma hoare_load_template : hoare P (fun t => template w = Some t) (load_template w).
Proof.
  unfold load_template; destruct (template w) eqn:E.
  - eapply hoare_post; [apply hoare_ret|]; cbv beta; intros ? ->; auto.
  - apply hoare_throw.
Qed.

Lemma hoare_free_neighbours : hoare P (fun _ => True) (free_neighbours a).
Proof.
  unfold free_neighbours; destruct (free_radius a).
  - apply hoare_engine; split; exact I.
  - destruct (free_sources a) as [l|] eqn:E.
    + apply hoare_iterM; intros x Hx; apply hoare_engine.
      split; [simpl; right; left; eauto | exact I].
    + eapply hoare_post; [apply hoare_ret|]; auto.
Qed.

Lemma hoare_configure_target :
  hoare P (fun _ => True) (configure_target a (str_replace_char "_" " " (target_src a))).
Proof.
  unfold configure_target.
  eapply hoare_bind with (R := fun _ => True).
  - destruct (src_gamma a).
    + eapply hoare_bind; [apply hoare_engine; split; [reflexivity | exact I]|].
      intros _ _; eapply hoare_post; [apply hoare_ret|]; auto.
    + destruct (free_norm a).
      * eapply hoare_post; [apply hoare_ret|]; auto.
      * eapply hoare_bind; [apply hoare_engine; split; exact I|].
        intros _ _; eapply hoare_post; [apply hoare_ret|]; auto.
  - intros fp _.
    eapply hoare_bind; [apply hoare_engine; split; [left; reflexivity | exact I]|]; intros _ _.
    eapply hoare_bind; [apply hoare_engine; split; [left; reflexivity | exact I]|]; intros _ _.
    eapply hoare_post; [apply hoare_ret|]; auto.
Qed.

Lemma hoare_free_diffuse : hoare P (fun _ => True) (free_diffuse a).
Proof.
  unfold free_diffuse; destruct (free_diff a).
  - eapply hoare_bind; [apply hoare_engine; split; [right; right; left; reflexivity | exact I]|].
    intros _ _; apply hoare_engine; split; [right; right; right; reflexivity | exact I].
  - eapply hoare_post; [apply hoare_ret|]; auto.
Qed.

Lemma run_fit_log : hoare P (fun _ => True) (run_fit log10 float_repr w a).
Proof.
  unfold run_fit; cbv zeta.
  eapply hoare_bind with (R := fun tw => match time_range a with
                                        | Some (x, y) => tw = (MJD_to_MET x, MJD_to_MET y)
                                        | None => True end).
  { unfold resolve_time_window; destruct (time_range a) as [[x y]|].
    - eapply hoare_post; [apply hoare_ret|]; auto.
    - apply hoare_get_time_window. }
  intros [tmin tmax] Htw.
  eapply hoare_bind with (R := fun _ => True).
  { unfold resolve_basepath; destruct (outfolder a).
    - eapply hoare_post; [apply hoare_ret|]; auto.
    - eapply hoare_bind; [apply hoare_liftL|]; intros b _.
      eapply hoare_post; [apply hoare_ret|]; auto. }
  intros basepath _.
  eapply hoare_bind; [apply hoare_setup; intros; split; exact I|]; intros _ _.
  eapply hoare_bind with (R := fun _ => True).
  { destruct (path_exists w basepath).
    - eapply hoare_post; [apply hoare_ret|]; auto.
    - apply hoare_emit; split; exact I. }
  intros _ _.
  eapply hoare_bind; [apply hoare_load_template|]; intros tmpl Ht.
  eapply hoare_bind; [apply hoare_liftL|]; intros cfg Hcfg; cbv beta in Ht, Hcfg.
  eapply hoare_bind.
  { apply hoare_emit; split.
    - simpl; apply get_key_of_lk.
      apply update_config_spec in Hcfg; tauto.
    - simpl; exists tmpl, tmin, tmax; split; [exact Ht|]; split; [exact Hcfg|].
      destruct (time_range a) as [[x y]|]; [inversion Htw; auto | exact I]. }
  intros _ _.
  eapply hoare_bind; [apply hoare_engine; split; exact I|]; intros _ _.
  eapply hoare_bind; [apply hoare_engine; split; exact I|]; intros _ _.
  eapply hoare_bind; [apply hoare_free_neighbours|]; intros _ _.
  eapply hoare_bind; [apply hoare_configure_target|]; intros fp _.
  eapply hoare_bind; [apply hoare_free_diffuse|]; intros _ _.
  eapply hoare_bind; [apply hoare_engine; split; exact I|]; intros _ _.
  eapply hoare_bind; [apply hoare_engine; split; exact I|]; intros _ _.
  eapply hoare_bind; [apply hoare_engine; split; [reflexivity | exact I]|]; intros _ _.
  eapply hoare_bind; [apply hoare_emit; split; exact I|]; intros _ _.
  destruct (negb (no_sed a)).
  - apply hoare_engine; split; [reflexivity | exact I].
  - eapply hoare_post; [apply hoare_ret|]; auto.
Qed.

End RunFitLog.

Lemma hoare_new_effect {A} (P : effect -> Prop) (R : A -> Prop) m s e :
  hoare P R m -> In e (st_log (snd (m s))) -> ~ In e (st_log s) -> P e.
Proof.
  intros H Hin Hnot; specialize (H s); destruct (m s) as [r s'].
  destruct H as [[L [HL HF]] _]; simpl in Hin; rewrite HL in Hin.
  apply in_app_or in Hin as [Hin|Hin]; [contradiction|].
  rewrite List.Forall_forall in HF; auto.
Qed.

Lemma get_time_window_state f s : snd (get_time_window f s) = s.
Proof. reflexivity. Qed.

(** ** C4: MET_to_MJD inverts MJD_to_MET *)

(** Claim C4: for every MJD value [x], [MET_to_MJD (MJD_to_MET x)] is [x]
    (over the rationals). *)
Theorem MET_to_MJD_MJD_to_MET (x : Q) : MET_to_MJD (MJD_to_MET x) == x.
Proof. unfold MET_to_MJD, MJD_to_MET; field. Qed.

(** ** C5: the explicit time window *)

(** Claim C5: in explicit mode both MJD bounds are converted with
    [met = (mjd - MJDREF) * 86400], [MJDREF = 51910.0 + 7.428703703703703E-4],
    and these are the [tmin] and [tmax] of the persisted configuration. *)
Theorem explicit_time_window_MET (a : args) (x y : Q) :
  time_range a = Some (x, y) ->
  (forall s, resolve_time_window a s = (inr (MJD_to_MET x, MJD_to_MET y), s)) /\
  (forall m, MJD_to_MET m = ((m - (51910 + Qmake 7428703703703703 (10 ^ 19))) * 86400)%Q) /\
  (forall lg fr w s p cfg,
     In (DumpYaml p cfg) (st_log (snd (run_fit lg fr w a s))) ->
     ~ In (DumpYaml p cfg) (st_log s) ->
     lk cfg "selection" "tmin" = Some (YNum (MJD_to_MET x)) /\
     lk cfg "selection" "tmax" = Some (YNum (MJD_to_MET y))).
Proof.
  intros Htr; split; [|split].
  - intros s; unfold resolve_time_window; rewrite Htr; reflexivity.
  - intros m; reflexivity.
  - intros lg fr w s p cfg Hin Hnot.
    pose proof (hoare_new_effect _ _ _ s _ (run_fit_log lg fr w a) Hin Hnot) as [_ Hd].
    simpl in Hd; destruct Hd as [tmpl [tmin [tmax [_ [Hu Ht]]]]].
    rewrite Htr in Ht; destruct Ht as [-> ->].
    apply update_config_spec in Hu; tauto.
Qed.

Lemma explicit_time_window_MET_witness :
  time_range scenario_args = Some (55000, 55010)%Q /\
  ((forall s, resolve_time_window scenario_args s =
              (inr (MJD_to_MET 55000, MJD_to_MET 55010), s)) /\
   (forall m, MJD_to_MET m = ((m - (51910 + Qmake 7428703703703703 (10 ^ 19))) * 86400)%Q) /\
   (forall lg fr w s p cfg,
      In (DumpYaml p cfg) (st_log (snd (run_fit lg fr w scenario_args s))) ->
      ~ In (DumpYaml p cfg) (st_log s) ->
      lk cfg "selection" "tmin" = Some (YNum (MJD_to_MET 55000)) /\
      lk cfg "selection" "tmax" = Some (YNum (MJD_to_MET 55010)))).
Proof.
  split; [reflexivity|].
  apply (explicit_time_window_MET scenario_args 55000 55010); reflexivity.
Defined.

(** ** C6: the free radius takes precedence *)

(** Claim C6: when [free_radius] is given, the orchestrator frees the
    sources within that radius with TS above 2, excluding [isodiff] and
    [galdiff], and the [free_sources] list is ignored. *)
Theorem free_radius_precedence lg fr w (a : args) (r : Q) (l : option (list string)) (s : st) :
  free_radius a = Some r ->
  free_neighbours a s =
    (inr tt, mkSt (st_dir s)
               (st_log s ++ [Engine (FreeSources r (Some 2%Q, None) ["isodiff"; "galdiff"])])%list) /\
  run_fit lg fr w (with_free_sources a l) s = run_fit lg fr w a s.
Proof.
  destruct a; simpl; intros ->; split; reflexivity.
Qed.

Lemma free_radius_precedence_witness :
  free_radius (mkArgs "Crab_Nebula" 100 100000 None "/data/crab" None true
                      (Some 3%Q) (Some ["4FGL J0534.5+2201i"]) None true false 5 (Some "out") false)
    = Some 3%Q /\
  (free_neighbours (mkArgs "Crab_Nebula" 100 100000 None "/data/crab" None true
                      (Some 3%Q) (Some ["4FGL J0534.5+2201i"]) None true false 5 (Some "out") false)
                   scenario_state =
    (inr tt, mkSt (st_dir scenario_state)
               (st_log scenario_state ++
                [Engine (FreeSources 3%Q (Some 2%Q, None) ["isodiff"; "galdiff"])])%list) /\
   run_fit log10_pow10 (fun _ => "") scenario_world
     (with_free_sources (mkArgs "Crab_Nebula" 100 100000 None "/data/crab" None true
                      (Some 3%Q) (Some ["4FGL J0534.5+2201i"]) None true false 5 (Some "out") false) None)
     scenario_state =
   run_fit log10_pow10 (fun _ => "") scenario_world
     (mkArgs "Crab_Nebula" 100 100000 None "/data/crab" None true
                      (Some 3%Q) (Some ["4FGL J0534.5+2201i"]) None true false 5 (Some "out") false)
     scenario_state).
Proof.
  split; [reflexivity|].
  apply free_radius_precedence; reflexivity.
Defined.

(** ** C2: the default output directory *)

(** Claim C2: with no output folder, building the default directory name
    formats the source-name string with ['{:.0f}'], which raises; [run_fit]
    stops there, before the data files, the configuration or the engine
    are touched.  (When the time window itself cannot be read in discovery
    mode, that earlier error is the one raised; the format step is not
    reached.) *)
Theorem default_outfolder_format_error lg fr w (a : args) (s : st) :
  outfolder a = None ->
  snd (run_fit lg fr w a s) = s /\
  (fst (run_fit lg fr w a s) = inl (Propagated FormatValueError) \/
   (time_range a = None /\
    exists e, fst (get_time_window (data_path a) s) = inl e /\
              fst (run_fit lg fr w a s) = inl e)).
Proof.
  intros Ho.
  unfold run_fit, bindM, resolve_time_window, resolve_basepath; rewrite Ho.
  destruct (time_range a) as [[x y]|].
  - split; [reflexivity | left; reflexivity].
  - destruct (get_time_window (data_path a) s) as [[e|[t0 t1]] s'] eqn:E;
      pose proof (get_time_window_state (data_path a) s) as Hs; rewrite E in Hs;
      simpl in Hs; subst s'.
    + split; [reflexivity|]; right; split; [reflexivity|]; exists e; split; reflexivity.
    + split; [reflexivity | left; reflexivity].
Qed.

Lemma default_outfolder_format_error_witness :
  outfolder (mkArgs "Crab_Nebula" 100 100000 (Some (55000, 55010)%Q) "/data/crab" None false
                    None None None false false 3 None false) = None /\
  (snd (run_fit log10_pow10 (fun _ => "") scenario_world
          (mkArgs "Crab_Nebula" 100 100000 (Some (55000, 55010)%Q) "/data/crab" None false
                  None None None false false 3 None false) scenario_state) = scenario_state /\
   (fst (run_fit log10_pow10 (fun _ => "") scenario_world
          (mkArgs "Crab_Nebula" 100 100000 (Some (55000, 55010)%Q) "/data/crab" None false
                  None None None false false 3 None false) scenario_state)
      = inl (Propagated FormatValueError) \/
    (time_range (mkArgs "Crab_Nebula" 100 100000 (Some (55000, 55010)%Q) "/data/crab" None false
                  None None None false false 3 None false) = None /\
     exists e, fst (get_time_window "/data/crab" scenario_state) = inl e /\
       fst (run_fit log10_pow10 (fun _ => "") scenario_world
          (mkArgs "Crab_Nebula" 100 100000 (Some (55000, 55010)%Q) "/data/crab" None false
                  None None None false false 3 None false) scenario_state) = inl e))).
Proof.
  split; [reflexivity|].
  apply default_outfolder_format_error; reflexivity.
Defined.

(** ** C8: the persisted configuration *)

(** Claim C8: the persisted configuration is the template with exactly the
    five [selection] fields overwritten, [evfile] and [scfile] rewritten to
    the data directory joined with the template paths' base names, and
    [model.catalogs] set to the optional XML path then the optional
    ['3FGL']; every other field of the template is unchanged. *)
Theorem persisted_config_overlay lg fr w (a : args) (s : st) p (cfg : config) :
  In (DumpYaml p cfg) (st_log (snd (run_fit lg fr w a s))) ->
  ~ In (DumpYaml p cfg) (st_log s) ->
  exists (tmpl : config) tmin tmax,
    template w = Some tmpl /\
    (match time_range a with
     | Some (x, y) => tmin = MJD_to_MET x /\ tmax = MJD_to_MET y
     | None => True
     end) /\
    is_section tmpl "selection" /\ is_section tmpl "data" /\ is_section tmpl "model" /\
    lk cfg "selection" "emin" = Some (YNum (emin a)) /\
    lk cfg "selection" "emax" = Some (YNum (emax a)) /\
    lk cfg "selection" "tmin" = Some (YNum tmin) /\
    lk cfg "selection" "tmax" = Some (YNum tmax) /\
    lk cfg "selection" "target" = Some (YStr (str_replace_char "_" " " (target_src a))) /\
    (exists ev, lk tmpl "data" "evfile" = Some (YStr ev) /\
       lk cfg "data" "evfile" = Some (YStr (path_join (data_path a) (split_last ev)))) /\
    (exists sc, lk tmpl "data" "scfile" = Some (YStr sc) /\
       lk cfg "data" "scfile" = Some (YStr (path_join (data_path a) (split_last sc)))) /\
    lk cfg "model" "catalogs" = Some (YList (catalogs_of a)) /\
    (forall sec k, (sec, k) ∉ modified_keys -> lk cfg sec k = lk tmpl sec k) /\
    (forall sec, sec ∉ ["selection"; "data"; "model"] -> cfg !! sec = tmpl !! sec).
Proof.
  intros Hin Hnot.
  pose proof (hoare_new_effect _ _ _ s _ (run_fit_log lg fr w a) Hin Hnot) as [_ Hd].
  simpl in Hd; destruct Hd as [tmpl [tmin [tmax [Ht [Hu Htr]]]]].
  exists tmpl, tmin, tmax; split; [exact Ht|]; split; [exact Htr|].
  apply update_config_spec in Hu; exact Hu.
Qed.

Lemma persisted_config_overlay_witness :
  (In (DumpYaml "out/config.yaml" scenario_config) (st_log (snd scenario_run)) /\
   ~ In (DumpYaml "out/config.yaml" scenario_config) (st_log scenario_state)) /\
  exists (tmpl : config) tmin tmax,
    template scenario_world = Some tmpl /\
    (match time_range scenario_args with
     | Some (x, y) => tmin = MJD_to_MET x /\ tmax = MJD_to_MET y
     | None => True
     end) /\
    is_section tmpl "selection" /\ is_section tmpl "data" /\ is_section tmpl "model" /\
    lk scenario_config "selection" "emin" = Some (YNum (emin scenario_args)) /\
    lk scenario_config "selection" "emax" = Some (YNum (emax scenario_args)) /\
    lk scenario_config "selection" "tmin" = Some (YNum tmin) /\
    lk scenario_config "selection" "tmax" = Some (YNum tmax) /\
    lk scenario_config "selection" "target" =
      Some (YStr (str_replace_char "_" " " (target_src scenario_args))) /\
    (exists ev, lk tmpl "data" "evfile" = Some (YStr ev) /\
       lk scenario_config "data" "evfile" =
         Some (YStr (path_join (data_path scenario_args) (split_last ev)))) /\
    (exists sc, lk tmpl "data" "scfile" = Some (YStr sc) /\
       lk scenario_config "data" "scfile" =
         Some (YStr (path_join (data_path scenario_args) (split_last sc)))) /\
    lk scenario_config "model" "catalogs" = Some (YList (catalogs_of scenario_args)) /\
    (forall sec k, (sec, k) ∉ modified_keys -> lk scenario_config sec k = lk tmpl sec k) /\
    (forall sec, sec ∉ ["selection"; "data"; "model"] -> scenario_config !! sec = tmpl !! sec).
Proof.
  assert (Hin : In (DumpYaml "out/config.yaml" scenario_config) (st_log (snd scenario_run)))
    by (vm_compute; right; right; right; left; reflexivity).
  assert (Hnot : ~ In (DumpYaml "out/config.yaml" scenario_config) (st_log scenario_state))
    by (simpl; tauto).
  split; [split; assumption|].
  exact (persisted_config_overlay log10_pow10 (fun _ => "") scenario_world scenario_args
           scenario_state "out/config.yaml" scenario_config Hin Hnot).
Defined.

(** ** C9: the discovered time window *)

Lemma Qmin_cases x z : Qmin x z = x \/ Qmin x z = z.
Proof. unfold Qmin, GenericMinMax.gmin; destruct (Qcompare x z); auto. Qed.

Lemma Qmax_cases x z : Qmax x z = x \/ Qmax x z = z.
Proof. unfold Qmax, GenericMinMax.gmax; destruct (Qcompare x z); auto. Qed.

Lemma fold_Qmin_spec r x :
  In (fold_left Qmin r x) (x :: r) /\ forall y, In y (x :: r) -> (fold_left Qmin r x <= y)%Q.
Proof.
  revert x; induction r as [|z r IH]; intros x; simpl.
  - split; [left; reflexivity | intros y [<-|[]]; apply Qle_refl].
  - destruct (IH (Qmin x z)) as [Hin Hle]; split.
    + destruct Hin as [Hm|Hm].
      * destruct (Qmin_cases x z) as [E|E]; rewrite <- Hm, E; auto.
      * auto.
    + intros y [<-|[<-|Hy]].
      * eapply Qle_trans; [apply Hle; left; reflexivity | apply Q.le_min_l].
      * eapply Qle_trans; [apply Hle; left; reflexivity | apply Q.le_min_r].
      * apply Hle; right; exact Hy.
Qed.

Lemma fold_Qmax_spec r x :
  In (fold_left Qmax r x) (x :: r) /\ forall y, In y (x :: r) -> (y <= fold_left Qmax r x)%Q.
Proof.
  revert x; induction r as [|z r IH]; intros x; simpl.
  - split; [left; reflexivity | intros y [<-|[]]; apply Qle_refl].
  - destruct (IH (Qmax x z)) as [Hin Hle]; split.
    + destruct Hin as [Hm|Hm].
      * destruct (Qmax_cases x z) as [E|E]; rewrite <- Hm, E; auto.
      * auto.
    + intros y [<-|[<-|Hy]].
      * eapply Qle_trans; [apply Q.le_max_l | apply Hle; left; reflexivity].
      * eapply Qle_trans; [apply Q.le_max_r | apply Hle; left; reflexivity].
      * apply Hle; right; exact Hy.
Qed.

Lemma collect_headers_ok (fs : list (string * entry)) :
  (forall f e, In (f, e) fs -> exists t0 t1, e = FitsFile (Some t0) (Some t1)) ->
  exists l1 l2, collect_headers fs = inr (l1, l2) /\
    length l1 = length fs /\ length l2 = length fs /\
    (forall t, In t l1 <-> exists f t1, In (f, FitsFile (Some t) t1) fs) /\
    (forall t, In t l2 <-> exists f t0, In (f, FitsFile t0 (Some t)) fs).
Proof.
  induction fs as [|[f e] r IH]; intros H.
  - exists [], []; simpl; repeat split; try tauto; intros [? [? []]].
  - destruct (H f e (or_introl eq_refl)) as [t0 [t1 ->]].
    destruct IH as [l1 [l2 [Hc [Hn1 [Hn2 [H1 H2]]]]]].
    { intros f' e' Hin; apply (H f' e'); right; exact Hin. }
    exists (t0 :: l1), (t1 :: l2); simpl; rewrite Hc.
    split; [reflexivity|]; split; [simpl; congruence|]; split; [simpl; congruence|].
    split; intros t; simpl; rewrite ?H1, ?H2; split.
    + intros [<-|[f' [t1' Hin]]]; [exists f, (Some t1); left; reflexivity | eauto].
    + intros [f' [t1' [Heq|Hin]]]; [inversion Heq; auto | right; eauto].
    + intros [<-|[f' [t0' Hin]]]; [exists f, (Some t0); left; reflexivity | eauto].
    + intros [f' [t0' [Heq|Hin]]]; [inversion Heq; auto | right; eauto].
Qed.

(** Claim C9: in discovery mode, when the data directory holds at least one
    raw event file (name containing ['PH']) and all of them carry [TSTART]
    and [TSTOP], the resolved window is the least [TSTART] and the greatest
    [TSTOP] of those files. *)
Theorem discovered_time_window (a : args) (s : st) :
  time_range a = None ->
  List.filter (fun p => str_contains "PH" (fst p)) (st_dir s) <> [] ->
  (forall f e, In (f, e) (List.filter (fun p => str_contains "PH" (fst p)) (st_dir s)) ->
     exists t0 t1, e = FitsFile (Some t0) (Some t1)) ->
  exists tmin tmax,
    resolve_time_window a s = (inr (tmin, tmax), s) /\
    (exists f t1, In (f, FitsFile (Some tmin) t1)
                     (List.filter (fun p => str_contains "PH" (fst p)) (st_dir s))) /\
    (forall f t0 t1, In (f, FitsFile (Some t0) t1)
                        (List.filter (fun p => str_contains "PH" (fst p)) (st_dir s)) ->
                     (tmin <= t0)%Q) /\
    (exists f t0, In (f, FitsFile t0 (Some tmax))
                     (List.filter (fun p => str_contains "PH" (fst p)) (st_dir s))) /\
    (forall f t0 t1, In (f, FitsFile t0 (Some t1))
                        (List.filter (fun p => str_contains "PH" (fst p)) (st_dir s)) ->
                     (t1 <= tmax)%Q).
Proof.
  intros Htr Hne Hall.
  unfold resolve_time_window; rewrite Htr; unfold get_time_window.
  destruct (collect_headers_ok _ Hall) as [l1 [l2 [Hc [Hn1 [Hn2 [H1 H2]]]]]].
  rewrite Hc.
  destruct l1 as [|x1 r1]; [destruct (List.filter _ _); [congruence | discriminate]|].
  destruct l2 as [|x2 r2]; [destruct (List.filter _ _); [congruence | discriminate]|].
  simpl.
  destruct (fold_Qmin_spec r1 x1) as [Imin Lmin].
  destruct (fold_Qmax_spec r2 x2) as [Imax Lmax].
  exists (fold_left Qmin r1 x1), (fold_left Qmax r2 x2); split; [reflexivity|].
  split; [apply H1; exact Imin|].
  split; [intros f t0 t1 Hin; apply Lmin, H1; eauto|].
  split; [apply H2; exact Imax|].
  intros f t0 t1 Hin; apply Lmax, H2; eauto.
Qed.

Lemma discovered_time_window_witness :
  time_range (mkArgs "Crab_Nebula" 100 100000 None "/data/crab" None false
                     None None None false false 3 (Some "out") false) = None /\
  List.filter (fun p => str_contains "PH" (fst p)) (st_dir scenario_state) <> [] /\
  (forall f e, In (f, e) (List.filter (fun p => str_contains "PH" (fst p)) (st_dir scenario_state)) ->
     exists t0 t1, e = FitsFile (Some t0) (Some t1)) /\
  exists tmin tmax,
    resolve_time_window (mkArgs "Crab_Nebula" 100 100000 None "/data/crab" None false
                     None None None false false 3 (Some "out") false) scenario_state
      = (inr (tmin, tmax), scenario_state) /\
    (exists f t1, In (f, FitsFile (Some tmin) t1)
                     (List.filter (fun p => str_contains "PH" (fst p)) (st_dir scenario_state))) /\
    (forall f t0 t1, In (f, FitsFile (Some t0) t1)
                        (List.filter (fun p => str_contains "PH" (fst p)) (st_dir scenario_state)) ->
                     (tmin <= t0)%Q) /\
    (exists f t0, In (f, FitsFile t0 (Some tmax))
                     (List.filter (fun p => str_contains "PH" (fst p)) (st_dir scenario_state))) /\
    (forall f t0 t1, In (f, FitsFile t0 (Some t1))
                        (List.filter (fun p => str_contains "PH" (fst p)) (st_dir scenario_state)) ->
                     (t1 <= tmax)%Q).
Proof.
  assert (Hall : forall f e, In (f, e) (List.filter (fun p => str_contains "PH" (fst p))
                                          (st_dir scenario_state)) ->
                   exists t0 t1, e = FitsFile (Some t0) (Some t1)).
  { vm_compute; intros f e [H|[H|[]]]; inversion H; eauto. }
  split; [reflexivity|]; split; [vm_compute; discriminate|]; split; [exact Hall|].
  apply discovered_time_window; [reflexivity | vm_compute; discriminate | exact Hall].
Defined.

(** ** C10: the target name given to the engine *)

(** Claim C10: the engine only sees the target name with every underscore
    replaced by a space: in the configuration's [target] field and in every
    [set_parameter], [free_source], [bowtie] and [sed] call that names the
    target (the other [free_source] calls name a source of the
    [free_sources] list or a diffuse component); and the underscored form
    makes no other difference to a run: two names with the same
    underscore-free form give the same run (its only other use, the default
    directory name, raises whatever the name). *)
Theorem target_name_underscores lg fr w (a : args) (t : string) :
  str_replace_char "_" " " t = str_replace_char "_" " " (target_src a) ->
  (forall s, run_fit lg fr w (with_target_src a t) s = run_fit lg fr w a s) /\
  hoare (names_ok a) (fun _ => True) (run_fit lg fr w a).
Proof.
  intros H; split.
  - intros s; destruct a; simpl in H; unfold with_target_src, run_fit, resolve_basepath.
    cbn [target_src emin emax time_range data_path xml_path use_3FGL free_radius
         free_sources src_gamma free_norm free_diff retries outfolder no_sed].
    rewrite H; destruct outfolder0; reflexivity.
  - eapply hoare_effects; [apply run_fit_log|]; intros e [He _]; exact He.
Qed.

Lemma target_name_underscores_witness :
  str_replace_char "_" " " "Crab Nebula" = str_replace_char "_" " " (target_src scenario_args) /\
  ((forall s, run_fit log10_pow10 (fun _ => "") scenario_world
                (with_target_src scenario_args "Crab Nebula") s =
              run_fit log10_pow10 (fun _ => "") scenario_world scenario_args s) /\
   hoare (names_ok scenario_args) (fun _ => True)
         (run_fit log10_pow10 (fun _ => "") scenario_world scenario_args)).
Proof.
  split; [reflexivity|].
  apply target_name_underscores; reflexivity.
Defined.

(** ** C3: the spacecraft file *)

Lemma rvs_bind folder {A B} (m : M A) (k : A -> M B) :
  raises_via_setup folder m -> (forall x, raises_via_setup folder (k x)) ->
  raises_via_setup folder (bindM m k).
Proof.
  intros Hm Hk s e; unfold bindM.
  destruct (m s) as [[e'|x] s'] eqn:E; simpl; intros H.
  - inversion H; subst; apply (Hm s); rewrite E; reflexivity.
  - exact (Hk x s' e H).
Qed.

Lemma rvs_no_raise folder {A} (m : M A) :
  (forall s e, fst (m s) <> inl (Raised e)) -> raises_via_setup folder m.
Proof. intros H s e He; exfalso; exact (H s e He). Qed.

Lemma rvs_ret folder {A} (x : A) : raises_via_setup folder (retM x).
Proof. apply rvs_no_raise; discriminate. Qed.

Lemma rvs_emit folder e : raises_via_setup folder (emit e).
Proof. apply rvs_no_raise; discriminate. Qed.

Lemma rvs_engine folder c : raises_via_setup folder (engine c).
Proof. apply rvs_emit. Qed.

Lemma rvs_liftL folder {A} (r : lib_error + A) : raises_via_setup folder (liftL r).
Proof. apply rvs_no_raise; destruct r; discriminate. Qed.

Lemma rvs_throw_lib folder {A} (e : lib_error) : raises_via_setup folder (@throw A (Propagated e)).
Proof. apply rvs_no_raise; discriminate. Qed.

Lemma rvs_get_time_window folder f : raises_via_setup folder (get_time_window f).
Proof.
  apply rvs_no_raise; intros s e; unfold get_time_window; simpl.
  repeat match goal with |- context [match ?x with _ => _ end] => destruct x end;
    discriminate.
Qed.

Lemma rvs_iterM folder {A} (f : A -> M unit) l :
  (forall x, raises_via_setup folder (f x)) -> raises_via_setup folder (iterM f l).
Proof.
  intros Hf; induction l as [|x r IH]; simpl; [apply rvs_ret|].
  apply rvs_bind; auto.
Qed.

Lemma rvs_setup folder : raises_via_setup folder (setup_data_files folder).
Proof. intros s e H; exists s; exact H. Qed.

Ltac rvs_step :=
  first
    [ apply rvs_setup
    | apply rvs_bind; [|intros ?]
    | apply rvs_ret | apply rvs_emit | apply rvs_engine | apply rvs_liftL
    | apply rvs_throw_lib | apply rvs_get_time_window
    | apply rvs_iterM; intros ?
    | match goal with
      | |- raises_via_setup _ (match ?x with _ => _ end) => destruct x
      | |- raises_via_setup _ (if ?x then _ else _) => destruct x
      end
    | unfold resolve_time_window, resolve_basepath, load_template, free_neighbours,
             configure_target, free_diffuse ].

Lemma run_fit_raises_via_setup lg fr w (a : args) :
  raises_via_setup (data_path a) (run_fit lg fr w a).
Proof. unfold run_fit; cbv zeta; repeat rvs_step. Qed.

Lemma str_contains_SC_events : str_contains "SC" "events.txt" = false.
Proof. reflexivity. Qed.

(** The PH-file step of lines 13-16 keeps every other entry and does not fail. *)
Lemma setup_events_step folder (files : list string) s :
  let m := (if negb (bool_decide ("events.txt" ∈ files)) then
              write_text folder "events.txt"
                (newline_join (map (path_join folder) (List.filter (str_contains "PH") files)))
            else retM tt) in
  exists s1, m s = (inr tt, s1) /\
    (forall f e, f <> "events.txt" -> In (f, e) (st_dir s) -> In (f, e) (st_dir s1)) /\
    (exists L, st_log s1 = (st_log s ++ L)%list).
Proof.
  cbv zeta; destruct (negb _).
  - eexists; split; [reflexivity|]; split.
    + intros f e Hf Hin; simpl; apply in_or_app; left.
      apply filter_In; split; [exact Hin|].
      simpl; apply negb_true_iff, String.eqb_neq; exact Hf.
    + eexists; reflexivity.
  - exists s; split; [reflexivity|]; split; [auto|].
    exists []; rewrite app_nil_r; reflexivity.
Qed.

(** ** Claim C3 *)

(** C3: for a data directory without a file named ['spacecraft.fits'],
    [setup_data_files] renames the only file whose name contains ['SC'] to
    ['spacecraft.fits'] (the rename is logged, and the file's content is
    found under the new name) when there is exactly one such file, and
    raises its exception when there are zero or several; and every
    exception of the script's own that [run_fit] raises (for any world,
    arguments and starting directory) is one that [setup_data_files] raises,
    the script defining no other ([local_error] has the single constructor
    [NoSpacecraftFile]). *)
Theorem spacecraft_file_setup (folder : string) (s : st) :
  "spacecraft.fits" ∉ map fst (st_dir s) ->
  (forall f, List.filter (str_contains "SC") (map fst (st_dir s)) = [f] ->
     fst (setup_data_files folder s) = inr tt /\
     In (RenameFile (path_join folder f) (path_join folder "spacecraft.fits"))
        (st_log (snd (setup_data_files folder s))) /\
     (forall e, In (f, e) (st_dir s) ->
        In ("spacecraft.fits", e) (st_dir (snd (setup_data_files folder s))))) /\
  (length (List.filter (str_contains "SC") (map fst (st_dir s))) <> 1 ->
     fst (setup_data_files folder s) = inl (Raised NoSpacecraftFile)) /\
  (forall lg fr w a s0 e, fst (run_fit lg fr w a s0) = inl (Raised e) ->
     exists s1, fst (setup_data_files (data_path a) s1) = inl (Raised e)).
Proof.
  intros Hnsc.
  assert (Hb : bool_decide ("spacecraft.fits" ∈ map fst (st_dir s)) = false)
    by (apply bool_decide_eq_false_2; exact Hnsc).
  destruct (setup_events_step folder (map fst (st_dir s)) s) as (s1 & Hs1 & Hdir & Hlog).
  split; [|split].
  - intros f Hf.
    assert (Hfin : In f (List.filter (str_contains "SC") (map fst (st_dir s))))
      by (rewrite Hf; left; reflexivity).
    apply filter_In in Hfin as [Hfnames HfSC].
    assert (Hfev : f <> "events.txt")
      by (intros ->; rewrite str_contains_SC_events in HfSC; discriminate).
    assert (Hfsc : f <> "spacecraft.fits")
      by (intros ->; apply Hnsc; apply list_elem_of_In; exact Hfnames).
    assert (E : setup_data_files folder s = rename_file folder f "spacecraft.fits" s1).
    { unfold setup_data_files, bindM at 1, listdir; cbn beta iota.
      unfold bindM at 1; rewrite Hs1; rewrite Hb; cbn [negb]; rewrite Hf; reflexivity. }
    rewrite E; unfold rename_file; cbn [fst snd st_log st_dir]; split; [reflexivity|split].
    + apply in_or_app; right; left; reflexivity.
    + intros e Hin.
      apply in_map_iff; exists (f, e); split.
      * simpl; rewrite String.eqb_refl; reflexivity.
      * apply filter_In; split; [apply Hdir; assumption|].
        simpl; apply negb_true_iff, String.eqb_neq; exact Hfsc.
  - intros Hlen.
    unfold setup_data_files, bindM at 1, listdir; cbn beta iota.
    unfold bindM at 1; rewrite Hs1; rewrite Hb; cbn [negb].
    destruct (List.filter (str_contains "SC") (map fst (st_dir s))) as [|f [|g r]].
    + reflexivity.
    + exfalso; apply Hlen; reflexivity.
    + reflexivity.
  - intros lg fr w a s0 e H.
    exact (run_fit_raises_via_setup lg fr w a s0 e H).
Qed.

Lemma spacecraft_file_setup_witness :
  ("spacecraft.fits" ∉ map fst (st_dir scenario_state)) /\
  List.filter (str_contains "SC") (map fst (st_dir scenario_state)) = ["L1_SC00.fits"] /\
  fst (setup_data_files "/data/crab" scenario_state) = inr tt.
Proof.
  assert (H : "spacecraft.fits" ∉ map fst (st_dir scenario_state))
    by (unfold scenario_state; simpl; rewrite list_elem_of_In; simpl; intuition discriminate).
  assert (Hf : List.filter (str_contains "SC") (map fst (st_dir scenario_state)) = ["L1_SC00.fits"])
    by reflexivity.
  split; [exact H|split; [exact Hf|]].
  exact (proj1 (proj1 (spacecraft_file_setup "/data/crab" scenario_state H) _ Hf)).
Defined.

(** ** C7: configuring the target *)

Lemma filter_all_in {A} (f : A -> bool) (l : list A) :
  (forall x, In x l -> f x = true) -> List.filter f l = l.
Proof.
  induction l as [|x r IH]; intros H; simpl; [reflexivity|].
  rewrite (H x (or_introl eq_refl)), IH; [reflexivity|].
  intros y Hy; apply H; right; exact Hy.
Qed.

(** After fixing all of [src]'s spectral parameters and freeing those of
    [P], the free parameters of [src] are those of [P]. *)
Lemma free_pars_after_refree (nps sps : string -> list string) (fl0 : free_flags)
    (src : string) (P : list string) :
  free_pars_of nps sps
    (fun m q => if String.eqb m src && bool_decide (q ∈ P) then true
                else if String.eqb m src && bool_decide (q ∈ (nps src ++ sps src)%list)
                     then false else fl0 m q) src =
  List.filter (fun q => bool_decide (q ∈ P)) (nps src ++ sps src)%list.
Proof.
  unfold free_pars_of; apply filter_ext_in; intros q Hq.
  rewrite String.eqb_refl; simpl.
  destruct (bool_decide (q ∈ P)); [reflexivity|].
  rewrite bool_decide_eq_true_2; [reflexivity|].
  apply list_elem_of_In; exact Hq.
Qed.

Lemma refree_other (nps sps : string -> list string) (fl0 : free_flags)
    (src : string) (P : list string) m q :
  (if String.eqb m src && bool_decide (q ∈ P) then true
   else if String.eqb m src && bool_decide (q ∈ (nps src ++ sps src)%list)
        then false else fl0 m q) =
  (if String.eqb m src then
     (if String.eqb m src && bool_decide (q ∈ P) then true
      else if String.eqb m src && bool_decide (q ∈ (nps src ++ sps src)%list)
           then false else fl0 m q)
   else fl0 m q).
Proof. destruct (String.eqb m src); reflexivity. Qed.

(** ** Claim C7 *)

(** C7, counterexample: in the branch without an index override and without
    [free_norm] (the end-to-end scenario's arguments), [run_fit] runs the
    optimizer and then calls [free_source(src, pars=None, free=True)], which
    frees the target's normalization and shape parameters: for a power law
    the target ends with both ['Prefactor'] and ['Index'] free, so it is not
    true that no target parameters are freed. *)
Lemma configure_target_optimize_frees_all :
  src_gamma scenario_args = None /\ free_norm scenario_args = false /\
  engine_calls (st_log (snd (configure_target scenario_args "Crab Nebula" (mkSt [] [])))) =
    [Optimize; FreeSource "Crab Nebula" None false; FreeSource "Crab Nebula" None true] /\
  exists fl,
    apply_calls powerlaw_norm powerlaw_shape (fun _ _ => false)
      (engine_calls (st_log (snd (configure_target scenario_args "Crab Nebula" (mkSt [] []))))) =
      Some fl /\
    free_pars_of powerlaw_norm powerlaw_shape fl "Crab Nebula" = ["Prefactor"; "Index"].
Proof.
  split; [reflexivity|split; [reflexivity|split; [reflexivity|]]].
  eexists; split; [reflexivity|].
  vm_compute; reflexivity.
Qed.

(** C7, amended: [configure_target] leaves the directory alone, never fails,
    and makes exactly these engine calls: with an index override [g],
    [set_parameter(src, 'Index', g)], then [free_source(src, pars=None,
    free=False)] and [free_source(src, pars='norm', free=True)], returning
    ['norm']; otherwise with [free_norm], the last two calls only, returning
    ['norm']; otherwise [optimize()], then [free_source(src, pars=None,
    free=False)] and [free_source(src, pars=None, free=True)], returning
    [None]. Interpreted with fermipy's [free_source] (for any normalization
    and shape parameter lists and any initial free flags), the target ends
    with exactly its normalization parameters free in the first two cases,
    and with all its normalization and shape parameters free in the third;
    the flags of the other sources are unchanged. *)
Theorem configure_target_calls (a : args) (src : string) (s : st)
    (norm_pars shape_pars : string -> list string) (fl0 : free_flags) :
  let '(r, s') := configure_target a src s in
  st_dir s' = st_dir s /\
  exists cs fl,
    st_log s' = (st_log s ++ map Engine cs)%list /\
    apply_calls norm_pars shape_pars fl0 cs = Some fl /\
    (forall m q, fl m q = if String.eqb m src then fl m q else fl0 m q) /\
    match src_gamma a with
    | Some g =>
        cs = [SetParameter src "Index" g; FreeSource src None false;
              FreeSource src (Some "norm") true] /\
        r = inr (Some "norm") /\
        free_pars_of norm_pars shape_pars fl src =
          List.filter (fun q => bool_decide (q ∈ norm_pars src)) (norm_pars src ++ shape_pars src)%list
    | None =>
        if free_norm a then
          cs = [FreeSource src None false; FreeSource src (Some "norm") true] /\
          r = inr (Some "norm") /\
          free_pars_of norm_pars shape_pars fl src =
            List.filter (fun q => bool_decide (q ∈ norm_pars src)) (norm_pars src ++ shape_pars src)%list
        else
          cs = [Optimize; FreeSource src None false; FreeSource src None true] /\
          r = inr None /\
          free_pars_of norm_pars shape_pars fl src = (norm_pars src ++ shape_pars src)%list
    end.
Proof.
  destruct a as [t e0 e1 tr dp xp u3 frad fsrc [g|] fnorm fd rt of ns]; cbn [src_gamma free_norm];
    [|destruct fnorm];
    unfold configure_target, bindM, engine, emit, retM; cbn [src_gamma free_norm st_dir st_log];
    (split; [reflexivity|]).
  - eexists [_; _; _], _; split; [rewrite <- !app_assoc; reflexivity|].
    split; [reflexivity|]; split; [intros m q; apply refree_other|].
    split; [reflexivity|split; [reflexivity|]].
    apply free_pars_after_refree.
  - eexists [_; _], _; split; [rewrite <- !app_assoc; reflexivity|].
    split; [reflexivity|]; split; [intros m q; apply refree_other|].
    split; [reflexivity|split; [reflexivity|]].
    apply free_pars_after_refree.
  - eexists [_; _; _], _; split; [rewrite <- !app_assoc; reflexivity|].
    split; [reflexivity|]; split; [intros m q; apply refree_other|].
    split; [reflexivity|split; [reflexivity|]].
    rewrite free_pars_after_refree.
    apply filter_all_in; intros q Hq.
    apply bool_decide_eq_true_2, list_elem_of_In; exact Hq.
Qed.

(** ** Claim C1 *)

(** C1: in the end-to-end scenario ([emin = 100], [emax = 100000], SED
    not suppressed) the run succeeds and its last engine call is
    [gta.sed] with [loge_bins = list(np.arange(log10(emin), log10(emax),
    0.5))]; with [log10] exact there, these edges are [2.0, 2.5, ..., 4.5]:
    [np.arange] stops before its end point, so the edge [5.0 = log10(emax)]
    is not among them. *)
Theorem sed_bins_stop_before_emax (lg : Q -> Q) (fr : Q -> string) :
  lg 100%Q = 2%Q -> lg 100000%Q = 5%Q ->
  fst (run_fit lg fr scenario_world scenario_args scenario_state) = inr tt /\
  List.last (st_log (snd (run_fit lg fr scenario_world scenario_args scenario_state))) (SaveNpy "") =
    Engine (Sed "Crab Nebula" "sed_emin_100_emax_100000.fits"
                (sed_loge_bins lg 100%Q 100000%Q) None None) /\
  Forall2 Qeq (sed_loge_bins lg 100%Q 100000%Q) [2; 5 # 2; 3; 7 # 2; 4; 9 # 2]%Q /\
  Forall (fun q => (q < 5)%Q) (sed_loge_bins lg 100%Q 100000%Q).
Proof.
  intros H100 H100000.
  split; [vm_compute; reflexivity|].
  split; [vm_compute; reflexivity|].
  unfold sed_loge_bins, arange; rewrite H100, H100000.
  split; vm_compute; repeat constructor.
Qed.

Lemma sed_bins_stop_before_emax_witness :
  log10_pow10 100%Q = 2%Q /\ log10_pow10 100000%Q = 5%Q /\
  Forall2 Qeq (sed_loge_bins log10_pow10 100%Q 100000%Q) [2; 5 # 2; 3; 7 # 2; 4; 9 # 2]%Q.
Proof.
  split; [reflexivity|split; [reflexivity|]].
  exact (proj1 (proj2 (proj2 (sed_bins_stop_before_emax log10_pow10 (fun _ => "")
                                 eq_refl eq_refl)))).
Defined.

(* ================================================================== *)
(** * Further properties of the script *)

(** ** [setup_data_files] *)

Lemma in_names (n : string) (l : list (string * entry)) :
  In n (map fst l) <-> exists e, In (n, e) l.
Proof.
  rewrite in_map_iff; split.
  - intros [[n' e] [<- H]]; eauto.
  - intros [e H]; exists (n, e); auto.
Qed.

Lemma str_contains_SC_spacecraft : str_contains "SC" "spacecraft.fits" = false.
Proof. reflexivity. Qed.

Lemma filter_SC_inv (l : list string) f :
  In f (List.filter (str_contains "SC") l) ->
  In f l /\ f <> "events.txt" /\ f <> "spacecraft.fits".
Proof.
  intros H; apply filter_In in H as [Hin HSC]; split; [exact Hin|split].
  - intros ->; rewrite str_contains_SC_events in HSC; discriminate.
  - intros ->; rewrite str_contains_SC_spacecraft in HSC; discriminate.
Qed.

(** [setup_data_files] as its two steps: the event list, then the
    spacecraft file. *)
Lemma setup_data_files_eq folder s :
  let files := map fst (st_dir s) in
  let c := newline_join (map (path_join folder) (List.filter (str_contains "PH") files)) in
  let s1 := if bool_decide ("events.txt" ∈ files) then s
            else mkSt (List.filter (fun p => negb (String.eqb (fst p) "events.txt")) (st_dir s)
                         ++ [("events.txt", TextFile c)])
                      (st_log s ++ [WriteText (path_join folder "events.txt") c]) in
  setup_data_files folder s =
    if bool_decide ("spacecraft.fits" ∈ files) then (inr tt, s1)
    else match List.filter (str_contains "SC") files with
         | [f] => rename_file folder f "spacecraft.fits" s1
         | _ => (inl (Raised NoSpacecraftFile), s1)
         end.
Proof.
  cbv zeta; unfold setup_data_files, bindM, listdir.
  destruct (bool_decide ("events.txt" ∈ map fst (st_dir s))); cbn [negb];
    destruct (bool_decide ("spacecraft.fits" ∈ map fst (st_dir s))); cbn [negb];
    try reflexivity;
    destruct (List.filter (str_contains "SC") (map fst (st_dir s))) as [|? [|? ?]]; reflexivity.
Qed.

Lemma setup_noop folder s :
  "events.txt" ∈ map fst (st_dir s) -> "spacecraft.fits" ∈ map fst (st_dir s) ->
  setup_data_files folder s = (inr tt, s).
Proof.
  intros He Hs; rewrite setup_data_files_eq; cbv zeta.
  rewrite (bool_decide_eq_true_2 _ He), (bool_decide_eq_true_2 _ Hs); reflexivity.
Qed.

(** After a successful run both canonical files are present. *)
Lemma setup_success_names folder s :
  fst (setup_data_files folder s) = inr tt ->
  In "events.txt" (map fst (st_dir (snd (setup_data_files folder s)))) /\
  In "spacecraft.fits" (map fst (st_dir (snd (setup_data_files folder s)))).
Proof.
  rewrite setup_data_files_eq; cbv zeta.
  set (c := newline_join _).
  set (s1 := if bool_decide ("events.txt" ∈ map fst (st_dir s)) then s else _).
  assert (Hev : In "events.txt" (map fst (st_dir s1))).
  { unfold s1; destruct (bool_decide ("events.txt" ∈ map fst (st_dir s))) eqn:E.
    - apply bool_decide_eq_true_1, list_elem_of_In in E; exact E.
    - simpl; rewrite map_app; apply in_or_app; right; left; reflexivity. }
  assert (Hkeep : forall n e, n <> "events.txt" -> In (n, e) (st_dir s) -> In (n, e) (st_dir s1)).
  { intros n e Hn Hin; unfold s1; destruct (bool_decide _); [exact Hin|].
    simpl; apply in_or_app; left; apply filter_In; split; [exact Hin|].
    simpl; apply negb_true_iff, String.eqb_neq; exact Hn. }
  destruct (bool_decide ("spacecraft.fits" ∈ map fst (st_dir s))) eqn:Esc.
  - intros _; cbn [snd]; split; [exact Hev|].
    apply bool_decide_eq_true_1, list_elem_of_In, in_names in Esc as [e He].
    apply in_names; exists e; apply Hkeep; [discriminate | exact He].
  - destruct (List.filter (str_contains "SC") (map fst (st_dir s))) as [|f [|g r]] eqn:Ef;
      try discriminate.
    intros _.
    destruct (filter_SC_inv (map fst (st_dir s)) f) as [Hf [Hfe Hfs]]; [rewrite Ef; left; reflexivity|].
    apply in_names in Hf as [e He].
    unfold rename_file; cbn [snd st_dir]; split.
    + apply in_names in Hev as [e' He']; apply in_names; exists e'.
      apply in_map_iff; exists ("events.txt", e'); split.
      * cbn [fst snd]; rewrite (proj2 (String.eqb_neq "events.txt" f)); [reflexivity | congruence].
      * apply filter_In; split; [exact He'|reflexivity].
    + apply in_names; exists e; apply in_map_iff; exists (f, e); split.
      * cbn [fst snd]; rewrite String.eqb_refl; reflexivity.
      * apply filter_In; split; [apply Hkeep; assumption|].
        cbn [fst]; apply negb_true_iff, String.eqb_neq; exact Hfs.
Qed.

(** ** Extra X1 *)

(** X1: when the data directory already holds both ['events.txt'] and
    ['spacecraft.fits'], [setup_data_files] succeeds without writing,
    renaming or logging anything. *)
Theorem setup_data_files_prepared folder s :
  "events.txt" ∈ map fst (st_dir s) -> "spacecraft.fits" ∈ map fst (st_dir s) ->
  setup_data_files folder s = (inr tt, s).
Proof. exact (setup_noop folder s). Qed.

Lemma setup_data_files_prepared_witness :
  setup_data_files "/data/crab"
    (mkSt [("events.txt", TextFile ""); ("spacecraft.fits", FitsFile None None)] []) =
  (inr tt, mkSt [("events.txt", TextFile ""); ("spacecraft.fits", FitsFile None None)] []).
Proof.
  apply setup_data_files_prepared; apply list_elem_of_In; simpl; auto.
Defined.

(** ** Extra X2 *)

(** X2: [setup_data_files] is idempotent: after a successful call, calling
    it again on the resulting directory succeeds and changes nothing. *)
Theorem setup_data_files_idempotent folder s :
  fst (setup_data_files folder s) = inr tt ->
  setup_data_files folder (snd (setup_data_files folder s)) =
    (inr tt, snd (setup_data_files folder s)).
Proof.
  intros H; destruct (setup_success_names folder s H) as [He Hs].
  apply setup_noop; apply list_elem_of_In; assumption.
Qed.

Lemma setup_data_files_idempotent_witness :
  fst (setup_data_files "/data/crab" scenario_state) = inr tt /\
  setup_data_files "/data/crab" (snd (setup_data_files "/data/crab" scenario_state)) =
    (inr tt, snd (setup_data_files "/data/crab" scenario_state)).
Proof.
  assert (H : fst (setup_data_files "/data/crab" scenario_state) = inr tt) by reflexivity.
  split; [exact H | exact (setup_data_files_idempotent "/data/crab" scenario_state H)].
Defined.

(** ** Extra X3 *)

(** X3: when ['spacecraft.fits'] is already present, [setup_data_files]
    succeeds whatever the number of files containing ['SC'], renames
    nothing, at most writes ['events.txt'], and keeps every other file of
    the directory. *)
Theorem setup_data_files_with_spacecraft folder s :
  "spacecraft.fits" ∈ map fst (st_dir s) ->
  fst (setup_data_files folder s) = inr tt /\
  (exists L, st_log (snd (setup_data_files folder s)) = (st_log s ++ L)%list /\
     Forall (fun e => exists c, e = WriteText (path_join folder "events.txt") c) L) /\
  (forall n e, n <> "events.txt" -> In (n, e) (st_dir s) ->
     In (n, e) (st_dir (snd (setup_data_files folder s)))).
Proof.
  intros Hs; rewrite setup_data_files_eq; cbv zeta.
  rewrite (bool_decide_eq_true_2 _ Hs); cbn [fst snd].
  split; [reflexivity|].
  destruct (bool_decide ("events.txt" ∈ map fst (st_dir s))).
  - split; [exists []; rewrite app_nil_r; split; auto|auto].
  - split.
    + eexists; split; [reflexivity|]; repeat constructor; eauto.
    + intros n e Hn Hin; cbn [st_dir]; apply in_or_app; left; apply filter_In.
      split; [exact Hin|]; cbn [fst]; apply negb_true_iff, String.eqb_neq; exact Hn.
Qed.

Lemma setup_data_files_with_spacecraft_witness :
  fst (setup_data_files "/data/crab"
         (mkSt [("L1_PH00.fits", FitsFile None None); ("spacecraft.fits", FitsFile None None)] []))
    = inr tt.
Proof.
  apply (setup_data_files_with_spacecraft "/data/crab"
           (mkSt [("L1_PH00.fits", FitsFile None None); ("spacecraft.fits", FitsFile None None)] [])).
  apply list_elem_of_In; simpl; auto.
Defined.

(** ** Extra X4 *)

(** X4: when ['events.txt'] is missing, [setup_data_files] first writes it
    with the newline-separated paths [folder/f] of the files whose name
    contains ['PH'], in listing order; the file stays in the directory
    whether the spacecraft step then succeeds or raises (the write is not
    undone). *)
Theorem setup_data_files_event_list folder s :
  "events.txt" ∉ map fst (st_dir s) ->
  let c := newline_join (map (path_join folder)
                           (List.filter (str_contains "PH") (map fst (st_dir s)))) in
  exists L,
    st_log (snd (setup_data_files folder s)) =
      (st_log s ++ WriteText (path_join folder "events.txt") c :: L)%list /\
    In ("events.txt", TextFile c) (st_dir (snd (setup_data_files folder s))).
Proof.
  intros He; cbv zeta; rewrite setup_data_files_eq; cbv zeta.
  rewrite (bool_decide_eq_false_2 _ He).
  set (c := newline_join _).
  assert (Hin : In ("events.txt", TextFile c)
                  (List.filter (fun p => negb (String.eqb (fst p) "events.txt")) (st_dir s)
                   ++ [("events.txt", TextFile c)])%list)
    by (apply in_or_app; right; left; reflexivity).
  destruct (bool_decide ("spacecraft.fits" ∈ map fst (st_dir s))).
  - exists []; cbn [snd st_log st_dir]; split; [reflexivity | exact Hin].
  - destruct (List.filter (str_contains "SC") (map fst (st_dir s))) as [|f [|g r]] eqn:Ef;
      cbn [snd st_log st_dir].
    + exists []; split; [reflexivity | exact Hin].
    + destruct (filter_SC_inv (map fst (st_dir s)) f) as [_ [Hfe _]];
        [rewrite Ef; left; reflexivity|].
      unfold rename_file; cbn [snd st_log st_dir].
      eexists; split; [rewrite <- !app_assoc; reflexivity|].
      apply in_map_iff; exists ("events.txt", TextFile c); split.
      * cbn [fst snd]; rewrite (proj2 (String.eqb_neq "events.txt" f)); [reflexivity | congruence].
      * apply filter_In; split; [exact Hin | reflexivity].
    + exists []; split; [reflexivity | exact Hin].
Qed.

Lemma setup_data_files_event_list_witness :
  ("events.txt" ∉ map fst (st_dir scenario_state)) /\
  exists L,
    st_log (snd (setup_data_files "/data/crab" scenario_state)) =
      (st_log scenario_state ++
       WriteText "/data/crab/events.txt"
         (newline_join (map (path_join "/data/crab")
            (List.filter (str_contains "PH") (map fst (st_dir scenario_state))))) :: L)%list /\
    In ("events.txt", TextFile (newline_join (map (path_join "/data/crab")
            (List.filter (str_contains "PH") (map fst (st_dir scenario_state))))))
       (st_dir (snd (setup_data_files "/data/crab" scenario_state))).
Proof.
  assert (H : "events.txt" ∉ map fst (st_dir scenario_state)).
  { rewrite list_elem_of_In; simpl; intuition discriminate. }
  split; [exact H|].
  exact (setup_data_files_event_list "/data/crab" scenario_state H).
Defined.

(** ** [get_time_window] *)

Lemma collect_headers_inv (fs : list (string * entry)) l1 l2 :
  collect_headers fs = inr (l1, l2) ->
  (forall f e, In (f, e) fs -> exists t0 t1, e = FitsFile (Some t0) (Some t1)) /\
  length l1 = length fs.
Proof.
  revert l1 l2; induction fs as [|[f e] r IH]; intros l1 l2; simpl.
  - intros H; inversion H; subst; split; [intros ? ? []|reflexivity].
  - destruct e as [[t0|] [t1|]|c]; simpl; try discriminate.
    destruct (collect_headers r) as [x|[m1 m2]] eqn:E; try discriminate.
    intros H; inversion H; subst.
    destruct (IH m1 m2 eq_refl) as [Hall Hlen]; split; [|simpl; congruence].
    intros f' e' [Heq|Hin]; [inversion Heq; eauto | eauto].
Qed.

Lemma Permutation_filter_list {A} (f : A -> bool) (l l' : list A) :
  Permutation l l' -> Permutation (List.filter f l) (List.filter f l').
Proof.
  induction 1 as [|x l l' _ IH|x y l|l l' l'' _ IH1 _ IH2]; simpl.
  - constructor.
  - destruct (f x); [constructor|]; exact IH.
  - destruct (f x), (f y);
      first [apply Permutation_refl | apply perm_swap | apply perm_skip; apply Permutation_refl].
  - eapply perm_trans; eauto.
Qed.

(** What a successful [get_time_window] returns. *)
Lemma get_time_window_ok_spec folder s tmin tmax :
  let fs := List.filter (fun p => str_contains "PH" (fst p)) (st_dir s) in
  fst (get_time_window folder s) = inr (tmin, tmax) ->
  fs <> [] /\
  (forall f e, In (f, e) fs -> exists t0 t1, e = FitsFile (Some t0) (Some t1)) /\
  (exists f t1, In (f, FitsFile (Some tmin) t1) fs) /\
  (forall f t0 t1, In (f, FitsFile (Some t0) t1) fs -> (tmin <= t0)%Q) /\
  (exists f t0, In (f, FitsFile t0 (Some tmax)) fs) /\
  (forall f t0 t1, In (f, FitsFile t0 (Some t1)) fs -> (t1 <= tmax)%Q).
Proof.
  cbv zeta; unfold get_time_window; cbn [fst].
  destruct (collect_headers _) as [e|[l1 l2]] eqn:Ec; [discriminate|].
  destruct (collect_headers_inv _ _ _ Ec) as [Hall Hlen].
  destruct (collect_headers_ok _ Hall) as [m1 [m2 [Hc [_ [_ [H1 H2]]]]]].
  rewrite Hc in Ec; inversion Ec; subst m1 m2.
  destruct l1 as [|x1 r1]; [discriminate|]; destruct l2 as [|x2 r2]; [discriminate|].
  simpl; intros H; inversion H; subst tmin tmax.
  destruct (fold_Qmin_spec r1 x1) as [Imin Lmin].
  destruct (fold_Qmax_spec r2 x2) as [Imax Lmax].
  split; [intros E; rewrite E in Hlen; discriminate|].
  split; [exact Hall|].
  split; [apply H1; exact Imin|].
  split; [intros f t0 t1 Hin; apply Lmin, H1; eauto|].
  split; [apply H2; exact Imax|].
  intros f t0 t1 Hin; apply Lmax, H2; eauto.
Qed.

Lemma get_time_window_exists folder s :
  let fs := List.filter (fun p => str_contains "PH" (fst p)) (st_dir s) in
  fs <> [] ->
  (forall f e, In (f, e) fs -> exists t0 t1, e = FitsFile (Some t0) (Some t1)) ->
  exists tmin tmax, fst (get_time_window folder s) = inr (tmin, tmax).
Proof.
  cbv zeta; intros Hne Hall; unfold get_time_window; cbn [fst].
  destruct (collect_headers_ok _ Hall) as [l1 [l2 [Hc [Hn1 [Hn2 _]]]]]; rewrite Hc.
  destruct (List.filter _ _) as [|p r]; [congruence|].
  destruct l1 as [|x1 r1]; [discriminate|]; destruct l2 as [|x2 r2]; [discriminate|].
  simpl; eauto.
Qed.

(** ** Extra X5 *)

(** X5: [get_time_window] succeeds exactly when the directory holds at
    least one file whose name contains ['PH'] and every such file is a FITS
    file whose header has both [TSTART] and [TSTOP]. *)
Theorem get_time_window_succeeds_iff folder s :
  (exists w, fst (get_time_window folder s) = inr w) <->
  (List.filter (fun p => str_contains "PH" (fst p)) (st_dir s) <> [] /\
   forall f e, In (f, e) (List.filter (fun p => str_contains "PH" (fst p)) (st_dir s)) ->
     exists t0 t1, e = FitsFile (Some t0) (Some t1)).
Proof.
  split.
  - intros [[tmin tmax] H].
    destruct (get_time_window_ok_spec folder s tmin tmax H) as [Hne [Hall _]]; auto.
  - intros [Hne Hall].
    destruct (get_time_window_exists folder s Hne Hall) as [tmin [tmax H]]; eauto.
Qed.

(** ** Extra X6 *)

(** X6: with no file whose name contains ['PH'] in the directory,
    [get_time_window] raises the [ValueError] of [np.min] on an empty list,
    and leaves the directory as it is. *)
Theorem get_time_window_no_events folder s :
  List.filter (fun p => str_contains "PH" (fst p)) (st_dir s) = [] ->
  get_time_window folder s = (inl (Propagated EmptyReduction), s).
Proof. intros H; unfold get_time_window; rewrite H; reflexivity. Qed.

Lemma get_time_window_no_events_witness :
  get_time_window "/data/crab" (mkSt [("L1_SC00.fits", FitsFile None None)] []) =
    (inl (Propagated EmptyReduction), mkSt [("L1_SC00.fits", FitsFile None None)] []).
Proof. apply get_time_window_no_events; reflexivity. Defined.

(** ** Extra X7 *)

(** X7: when every event file has [TSTART <= TSTOP], the window
    [get_time_window] returns is ordered: [tmin <= tmax]. *)
Theorem get_time_window_ordered folder s tmin tmax :
  fst (get_time_window folder s) = inr (tmin, tmax) ->
  (forall f t0 t1, In (f, FitsFile (Some t0) (Some t1))
                      (List.filter (fun p => str_contains "PH" (fst p)) (st_dir s)) ->
                   (t0 <= t1)%Q) ->
  (tmin <= tmax)%Q.
Proof.
  intros H Hord.
  destruct (get_time_window_ok_spec folder s tmin tmax H)
    as [_ [Hall [[f [t1 Hf]] [_ [_ Hmax]]]]].
  destruct (Hall f _ Hf) as [t0' [t1' Heq]]; inversion Heq; subst t0' t1.
  eapply Qle_trans; [exact (Hord f tmin t1' Hf)|].
  exact (Hmax f (Some tmin) t1' Hf).
Qed.

Lemma get_time_window_ordered_witness :
  fst (get_time_window "/data/crab" scenario_state) = inr (299000000, 300500000)%Q /\
  (forall f t0 t1, In (f, FitsFile (Some t0) (Some t1))
                      (List.filter (fun p => str_contains "PH" (fst p)) (st_dir scenario_state)) ->
                   (t0 <= t1)%Q) /\
  (299000000 <= 300500000)%Q.
Proof.
  assert (H1 : fst (get_time_window "/data/crab" scenario_state) = inr (299000000, 300500000)%Q)
    by reflexivity.
  assert (H2 : forall f t0 t1, In (f, FitsFile (Some t0) (Some t1))
                 (List.filter (fun p => str_contains "PH" (fst p)) (st_dir scenario_state)) ->
                 (t0 <= t1)%Q).
  { vm_compute; intros f t0 t1 [H|[H|[]]]; inversion H; subst; discriminate. }
  split; [exact H1|split; [exact H2|]].
  exact (get_time_window_ordered "/data/crab" scenario_state _ _ H1 H2).
Defined.

(** ** Extra X8 *)

(** X8: the window does not depend on the order in which [os.listdir]
    lists the files: on any permutation of the directory listing,
    [get_time_window] succeeds as well, with the same [tmin] and [tmax]. *)
Theorem get_time_window_permutation folder s s' tmin tmax :
  Permutation (st_dir s) (st_dir s') ->
  fst (get_time_window folder s) = inr (tmin, tmax) ->
  exists tmin' tmax', fst (get_time_window folder s') = inr (tmin', tmax') /\
    (tmin == tmin')%Q /\ (tmax == tmax')%Q.
Proof.
  intros Hp H.
  pose proof (Permutation_filter_list (fun p => str_contains "PH" (fst p)) _ _ Hp) as Hpf.
  destruct (get_time_window_ok_spec folder s tmin tmax H)
    as [Hne [Hall [[f1 [u1 Hf1]] [Lmin [[f2 [u2 Hf2]] Lmax]]]]].
  destruct (get_time_window_exists folder s') as [tmin' [tmax' H']].
  { intros E; apply Hne; apply Permutation_nil; rewrite <- E; exact (Permutation_sym Hpf). }
  { intros f e Hin; apply (Hall f e); apply (Permutation_in _ (Permutation_sym Hpf)); exact Hin. }
  destruct (get_time_window_ok_spec folder s' tmin' tmax' H')
    as [_ [_ [[g1 [v1 Hg1]] [Lmin' [[g2 [v2 Hg2]] Lmax']]]]].
  exists tmin', tmax'; split; [exact H'|split]; apply Qle_antisym.
  - apply (Lmin g1 tmin' v1); apply (Permutation_in _ (Permutation_sym Hpf)); exact Hg1.
  - apply (Lmin' f1 tmin u1); apply (Permutation_in _ Hpf); exact Hf1.
  - apply (Lmax' f2 u2 tmax); apply (Permutation_in _ Hpf); exact Hf2.
  - apply (Lmax g2 v2 tmax'); apply (Permutation_in _ (Permutation_sym Hpf)); exact Hg2.
Qed.

Lemma get_time_window_permutation_witness :
  Permutation (st_dir scenario_state) (rev (st_dir scenario_state)) /\
  fst (get_time_window "/data/crab" scenario_state) = inr (299000000, 300500000)%Q /\
  exists tmin' tmax',
    fst (get_time_window "/data/crab" (mkSt (rev (st_dir scenario_state)) [])) = inr (tmin', tmax') /\
    (299000000 == tmin')%Q /\ (300500000 == tmax')%Q.
Proof.
  assert (Hp : Permutation (st_dir scenario_state) (rev (st_dir scenario_state)))
    by apply Permutation_rev.
  assert (H : fst (get_time_window "/data/crab" scenario_state) = inr (299000000, 300500000)%Q)
    by reflexivity.
  split; [exact Hp|split; [exact H|]].
  exact (get_time_window_permutation "/data/crab" scenario_state
           (mkSt (rev (st_dir scenario_state)) []) _ _ Hp H).
Defined.

(** ** Time conversions *)

Lemma MJD_to_MET_le x y : (x <= y)%Q <-> (MJD_to_MET x <= MJD_to_MET y)%Q.
Proof. unfold MJD_to_MET; split; intros H; lra. Qed.

(** ** Extra X9 *)

(** X9: [MJD_to_MET] inverts [MET_to_MJD]: converting a mission elapsed
    time to MJD and back gives it again (over the rationals). *)
Theorem MJD_to_MET_MET_to_MJD (y : Q) : (MJD_to_MET (MET_to_MJD y) == y)%Q.
Proof. unfold MET_to_MJD, MJD_to_MET; field. Qed.

(** ** Extra X10 *)

(** X10: [MJD_to_MET] is strictly increasing and affine: it is zero at
    [MJDREF], and two dates one MJD day apart are 86400 s apart. *)
Theorem MJD_to_MET_increasing (x y : Q) :
  ((x < y)%Q <-> (MJD_to_MET x < MJD_to_MET y)%Q) /\
  (MJD_to_MET y - MJD_to_MET x == (y - x) * 86400)%Q /\
  (MJD_to_MET MJDREF == 0)%Q.
Proof.
  unfold MJD_to_MET; split; [split; intros H; lra|].
  split; [ring | ring].
Qed.

(** ** The resolved window *)

Lemma resolve_time_window_ordered_aux (a : args) s tmin tmax :
  fst (resolve_time_window a s) = inr (tmin, tmax) ->
  match time_range a with
  | Some (t0, t1) => (t0 <= t1)%Q
  | None => forall f t0 t1, In (f, FitsFile (Some t0) (Some t1))
                               (List.filter (fun p => str_contains "PH" (fst p)) (st_dir s)) ->
                            (t0 <= t1)%Q
  end ->
  (tmin <= tmax)%Q.
Proof.
  unfold resolve_time_window; destruct (time_range a) as [[t0 t1]|].
  - intros H Hle; inversion H; subst; exact (proj1 (MJD_to_MET_le t0 t1) Hle).
  - intros H Hord.
    destruct (get_time_window_ok_spec _ s tmin tmax H)
      as [_ [Hall [[f [t1 Hf]] [_ [_ Hmax]]]]].
    destruct (Hall f _ Hf) as [t0' [t1' Heq]]; inversion Heq; subst t0' t1.
    eapply Qle_trans; [exact (Hord f tmin t1' Hf)|].
    exact (Hmax f (Some tmin) t1' Hf).
Qed.

(** ** Extra X11 *)

(** X11: the time window [run_fit] resolves (lines 59-65) is never
    inverted when its inputs are ordered: in explicit mode when the MJD
    range has [t0 <= t1], in discovery mode when every event file has
    [TSTART <= TSTOP]. *)
Theorem resolve_time_window_ordered (a : args) s tmin tmax :
  fst (resolve_time_window a s) = inr (tmin, tmax) ->
  match time_range a with
  | Some (t0, t1) => (t0 <= t1)%Q
  | None => forall f t0 t1, In (f, FitsFile (Some t0) (Some t1))
                               (List.filter (fun p => str_contains "PH" (fst p)) (st_dir s)) ->
                            (t0 <= t1)%Q
  end ->
  (tmin <= tmax)%Q.
Proof. exact (resolve_time_window_ordered_aux a s tmin tmax). Qed.

Lemma resolve_time_window_ordered_witness :
  fst (resolve_time_window scenario_args scenario_state) =
    inr (MJD_to_MET 55000, MJD_to_MET 55010) /\
  (55000 <= 55010)%Q /\ (MJD_to_MET 55000 <= MJD_to_MET 55010)%Q.
Proof.
  assert (H : fst (resolve_time_window scenario_args scenario_state) =
                inr (MJD_to_MET 55000, MJD_to_MET 55010)) by reflexivity.
  assert (Hle : (55000 <= 55010)%Q) by (vm_compute; discriminate).
  split; [exact H|split; [exact Hle|]].
  exact (resolve_time_window_ordered scenario_args scenario_state _ _ H Hle).
Defined.

(** ** The SED bin edges *)

Lemma lt_Qceiling (i : Z) (x : Q) : (i < Qceiling x)%Z -> (inject_Z i < x)%Q.
Proof.
  intros H; destruct (Qlt_le_dec (inject_Z i) x) as [Hlt|Hle]; [exact Hlt|].
  apply Qceiling_resp_le in Hle; rewrite Qceiling_Z in Hle; lia.
Qed.

(** ** Extra X12 *)

(** X12: for any [log10], the SED bin edges [np.arange(log10(emin),
    log10(emax), 0.5)] number [ceil((log10(emax) - log10(emin)) / 0.5)]
    (none when [log10(emax) <= log10(emin)]); the first is [log10(emin)],
    each next one is [0.5] above the previous, and all lie in
    [[log10(emin), log10(emax))]: [log10(emax)] itself is never an edge. *)
Theorem sed_loge_bins_spacing (lg : Q -> Q) (e0 e1 : Q) :
  length (sed_loge_bins lg e0 e1) = Z.to_nat (Qceiling ((lg e1 - lg e0) / (1 # 2))) /\
  match hd_error (sed_loge_bins lg e0 e1) with
  | Some q => (q == lg e0)%Q /\ (lg e0 < lg e1)%Q
  | None => (lg e1 <= lg e0)%Q
  end /\
  (forall i q, nth_error (sed_loge_bins lg e0 e1) (S i) = Some q ->
     exists p, nth_error (sed_loge_bins lg e0 e1) i = Some p /\ (q == p + (1 # 2))%Q) /\
  Forall (fun q => (lg e0 <= q)%Q /\ (q < lg e1)%Q) (sed_loge_bins lg e0 e1).
Proof.
  unfold sed_loge_bins, arange.
  set (N := Z.to_nat (Qceiling ((lg e1 - lg e0) / (1 # 2)))).
  assert (HN : forall i, (i < N)%nat -> (inject_Z (Z.of_nat i) * (1 # 2) < lg e1 - lg e0)%Q).
  { intros i Hi.
    assert (Hz : (Z.of_nat i < Qceiling ((lg e1 - lg e0) / (1 # 2)))%Z) by (unfold N in Hi; lia).
    apply lt_Qceiling in Hz.
    setoid_replace ((lg e1 - lg e0) / (1 # 2))%Q with ((lg e1 - lg e0) * 2)%Q using relation Qeq in Hz by field.
    lra. }
  assert (Hi0 : forall i : nat, (0 <= inject_Z (Z.of_nat i))%Q).
  { intros i; rewrite <- (Qle_bool_iff 0); unfold Qle_bool; simpl; apply Z.leb_le; lia. }
  split; [rewrite length_map, length_seq; reflexivity|].
  split; [|split].
  - destruct N as [|n] eqn:EN; simpl.
    + unfold N in EN.
      assert (Hc : (Qceiling ((lg e1 - lg e0) / (1 # 2)) <= 0)%Z) by lia.
      pose proof (Qle_ceiling ((lg e1 - lg e0) / (1 # 2))) as Hle.
      assert (H0 : ((lg e1 - lg e0) / (1 # 2) <= 0)%Q).
      { eapply Qle_trans; [exact Hle|]. change 0%Q with (inject_Z 0); rewrite <- Zle_Qle; exact Hc. }
      setoid_replace ((lg e1 - lg e0) / (1 # 2))%Q with ((lg e1 - lg e0) * 2)%Q using relation Qeq in H0 by field.
      lra.
    + split; [ring|].
      specialize (HN 0%nat ltac:(lia)); change (inject_Z (Z.of_nat 0)) with 0%Q in HN; lra.
  - intros i q Hq.
    rewrite nth_error_map, nth_error_seq in Hq |- *.
    destruct (Nat.ltb_spec (S i) N) as [Hlt|]; [|discriminate].
    destruct (Nat.ltb_spec i N) as [Hlt'|]; [|lia].
    simpl in Hq; inversion Hq; subst q.
    eexists; split; [reflexivity|].
    rewrite Nat2Z.inj_succ, <- Z.add_1_r, inject_Z_plus; simpl; ring.
  - apply List.Forall_forall; intros q Hq.
    apply in_map_iff in Hq as [i [<- Hi]]; apply in_seq in Hi.
    specialize (HN i ltac:(lia)); specialize (Hi0 i); split; [|lra].
    assert (H2 : (0 <= inject_Z (Z.of_nat i) * (1 # 2))%Q).
    { apply Qmult_le_0_compat; [exact Hi0 | discriminate]. }
    lra.
Qed.

Lemma sed_loge_bins_spacing_witness :
  nth_error (sed_loge_bins log10_pow10 100%Q 100000%Q) 1 = Some (5 # 2) /\
  exists p, nth_error (sed_loge_bins log10_pow10 100%Q 100000%Q) 0 = Some p /\ (5 # 2 == p + (1 # 2))%Q.
Proof.
  assert (H : nth_error (sed_loge_bins log10_pow10 100%Q 100000%Q) 1 = Some (5 # 2)) by reflexivity.
  split; [exact H|].
  exact (proj1 (proj2 (proj2 (sed_loge_bins_spacing log10_pow10 100%Q 100000%Q))) 0%nat _ H).
Defined.

(** ** How [run_fit] changes the data directory *)

Lemma bindM_inl {A B} (m : M A) (k : A -> M B) s e s1 :
  m s = (inl e, s1) -> bindM m k s = (inl e, s1).
Proof. intros H; unfold bindM; rewrite H; reflexivity. Qed.

Lemma bindM_inr {A B} (m : M A) (k : A -> M B) s x s1 :
  m s = (inr x, s1) -> bindM m k s = k x s1.
Proof. intros H; unfold bindM; rewrite H; reflexivity. Qed.

Ltac peel E :=
  match goal with
  | |- context [bindM ?m ?k ?s] =>
      destruct (m s) as [[?err|?x] ?s'] eqn:E;
      [rewrite (bindM_inl m k s _ _ E) | rewrite (bindM_inr m k s _ _ E); lazy beta iota]
  end.









Lemma resolve_time_window_state (a : args) s : snd (resolve_time_window a s) = s.
Proof. unfold resolve_time_window; destruct (time_range a) as [[? ?]|]; reflexivity. Qed.

Lemma resolve_basepath_state fr w (a : args) tmin tmax s :
  snd (resolve_basepath fr w a tmin tmax s) = s.
Proof.
  unfold resolve_basepath; destruct (outfolder a); [reflexivity|].
  unfold bindM, liftL; destruct (py_format _ _ _); reflexivity.
Qed.


(** ** Extra X13 *)


(** ** The order of [run_fit]'s effects *)

Lemma hoare_run {A} (P : effect -> Prop) (R : A -> Prop) (m : M A) s r s' :
  hoare P R m -> m s = (r, s') ->
  (exists L, st_log s' = (st_log s ++ L)%list /\ Forall P L) /\ (forall x, r = inr x -> R x).
Proof. intros H E; specialize (H s); rewrite E in H; exact H. Qed.

Lemma resolve_basepath_out fr w (a : args) tmin tmax s bp s' :
  resolve_basepath fr w a tmin tmax s = (inr bp, s') ->
  match outfolder a with Some o => bp = o | None => True end.
Proof.
  unfold resolve_basepath; destruct (outfolder a); [intros H; inversion H; reflexivity|].
  intros _; exact I.
Qed.

Lemma load_template_state w s : snd (load_template w s) = s.
Proof. unfold load_template; destruct (template w); reflexivity. Qed.

Lemma liftL_state {A} (r : lib_error + A) s : snd (liftL r s) = s.
Proof. destruct r; reflexivity. Qed.

Ltac ht_step :=
  first
    [ eapply hoare_bind with (R := fun _ => True); [|intros ? _]
    | eapply hoare_post; [apply hoare_ret | intros; exact I]
    | apply hoare_emit; exact I
    | apply hoare_engine; exact I
    | eapply hoare_post; [apply hoare_liftL | intros; exact I]
    | apply hoare_throw
    | apply hoare_iterM; intros ? ?
    | match goal with
      | |- hoare _ _ (match ?x with _ => _ end) => destruct x
      | |- hoare _ _ (if ?x then _ else _) => destruct x
      end
    | unfold load_template, free_neighbours, configure_target, free_diffuse ].

(** The log of a computation reached at state [t] grows by some [L]. *)
Ltac rest_log L HL :=
  lazymatch goal with
  | |- context [snd (?m ?t)] =>
      let Hh := fresh "Hh" in
      let Ht := fresh "Ht" in
      assert (Hh : hoare (fun _ => True) (fun _ => True) m) by (repeat ht_step);
      pose proof (Hh t) as Ht; destruct (m t) as [? ?];
      destruct Ht as [[L [HL _]] _]
  end.

(** ** Extra X14 *)

(** X14: [run_fit] makes no engine call before it has written the
    configuration: the effects it logs either contain no engine call at
    all, or are: data-file preparation and the creation of the output
    directory [basepath] (done when it did not exist), with no engine call
    and no configuration dump among them; then the dump of the
    configuration to [basepath/config.yaml], immediately followed by
    [GTAnalysis] on that same file with verbosity 3; then the rest.  The
    [basepath] is the output folder when one is given. *)
Theorem run_fit_config_before_engine lg fr w (a : args) s :
  exists L, st_log (snd (run_fit lg fr w a s)) = (st_log s ++ L)%list /\
  ((forall c, ~ In (Engine c) L) \/
   exists bp cfg L1 L2,
     L = (L1 ++ DumpYaml (path_join bp "config.yaml") cfg ::
               Engine (GTAnalysis (path_join bp "config.yaml") 3) :: L2)%list /\
     (forall c, ~ In (Engine c) L1) /\ (forall p c, ~ In (DumpYaml p c) L1) /\
     (if path_exists w bp then True else In (MakeDirs bp) L1) /\
     match outfolder a with Some o => bp = o | None => True end).
Proof.
  unfold run_fit; cbv zeta.
  peel E1; pose proof (resolve_time_window_state a s) as H1; rewrite E1 in H1;
    cbn [snd] in H1; subst;
    [exists []; rewrite app_nil_r; split; [reflexivity | left; intros c []]|].
  destruct x as [tmin tmax]; lazy beta iota.
  peel E2; pose proof (resolve_basepath_state fr w a tmin tmax s) as H2; rewrite E2 in H2;
    cbn [snd] in H2; subst;
    [exists []; rewrite app_nil_r; split; [reflexivity | left; intros c []]|].
  rename x into bp; pose proof (resolve_basepath_out _ _ _ _ _ _ _ _ E2) as Hbp.
  assert (HS : hoare (fun e => (forall c, e <> Engine c) /\ (forall p c, e <> DumpYaml p c))
                     (fun _ => True) (setup_data_files (data_path a)))
    by (apply hoare_setup; intros; split; intros; discriminate).
  peel E3; destruct (hoare_run _ _ _ _ _ _ HS E3) as [[L3 [HL3 HF3]] _].
  { exists L3; split; [exact HL3|left].
    intros c Hin; rewrite List.Forall_forall in HF3; exact (proj1 (HF3 _ Hin) c eq_refl). }
  assert (HM : exists s4 Lm,
            (if path_exists w bp then retM tt else emit (MakeDirs bp)) s' = (inr tt, s4) /\
            st_log s4 = (st_log s' ++ Lm)%list /\
            (forall c, ~ In (Engine c) Lm) /\ (forall p c, ~ In (DumpYaml p c) Lm) /\
            (if path_exists w bp then True else In (MakeDirs bp) Lm)).
  { destruct (path_exists w bp).
    - exists s', []; rewrite app_nil_r; repeat split; auto.
    - eexists _, [MakeDirs bp]; split; [reflexivity|]; split; [reflexivity|].
      split; [intros c [H|[]]; discriminate|]; split; [intros p c [H|[]]; discriminate|].
      left; reflexivity. }
  destruct HM as [s4 [Lm [E4 [HL4 [Hm1 [Hm2 Hm3]]]]]].
  rewrite (bindM_inr _ _ _ _ _ E4); lazy beta iota.
  peel E5; pose proof (load_template_state w s4) as H5; rewrite E5 in H5;
    cbn [snd] in H5; subst;
    [exists (L3 ++ Lm)%list; cbn [snd]; rewrite HL4, HL3, app_assoc; split; [reflexivity|left];
     intros c Hin; apply in_app_or in Hin as [Hin|Hin];
     [rewrite List.Forall_forall in HF3; exact (proj1 (HF3 _ Hin) c eq_refl) | exact (Hm1 c Hin)]|].
  peel E6; pose proof (liftL_state (update_config x0 a tmin tmax (str_replace_char "_" " " (target_src a))) s4)
    as H6; rewrite E6 in H6; cbn [snd] in H6; subst;
    [exists (L3 ++ Lm)%list; cbn [snd]; rewrite HL4, HL3, app_assoc; split; [reflexivity|left];
     intros c Hin; apply in_app_or in Hin as [Hin|Hin];
     [rewrite List.Forall_forall in HF3; exact (proj1 (HF3 _ Hin) c eq_refl) | exact (Hm1 c Hin)]|].
  rename x1 into cfg.
  rewrite (bindM_inr (emit (DumpYaml (path_join bp "config.yaml") cfg)) _ _ tt _ eq_refl);
    lazy beta iota.
  rewrite (bindM_inr (engine (GTAnalysis (path_join bp "config.yaml") 3)) _ _ tt _ eq_refl);
    lazy beta iota.
  rest_log L2 HL2.
  exists ((L3 ++ Lm) ++ DumpYaml (path_join bp "config.yaml") cfg ::
          Engine (GTAnalysis (path_join bp "config.yaml") 3) :: L2)%list.
  split.
  - cbn [snd]; rewrite HL2; cbn [st_log]; rewrite HL4, HL3, <- !app_assoc; reflexivity.
  - right; exists bp, cfg, (L3 ++ Lm)%list, L2; split; [reflexivity|].
    split; [|split; [|split]].
    + intros c Hin; apply in_app_or in Hin as [Hin|Hin];
        [rewrite List.Forall_forall in HF3; exact (proj1 (HF3 _ Hin) c eq_refl) | exact (Hm1 c Hin)].
    + intros p c Hin; apply in_app_or in Hin as [Hin|Hin];
        [rewrite List.Forall_forall in HF3; exact (proj2 (HF3 _ Hin) p c eq_refl) | exact (Hm2 p c Hin)].
    + destruct (path_exists w bp); [exact I|apply in_or_app; right; exact Hm3].
    + exact Hbp.
Qed.

(** ** The SED call *)

Ltac hp_step :=
  first
    [ eapply hoare_bind with (R := fun _ => True); [|intros ? _]
    | eapply hoare_post; [apply hoare_ret | intros; exact I]
    | apply hoare_emit; exact I
    | apply hoare_engine; exact I
    | eapply hoare_post; [apply hoare_liftL | intros; exact I]
    | apply hoare_throw
    | apply hoare_get_time_window
    | apply hoare_iterM; intros ? ?
    | match goal with
      | |- hoare _ _ (match ?x with _ => _ end) => destruct x
      | |- hoare _ _ (if ?x then _ else _) => destruct x
      end
    | unfold resolve_time_window, resolve_basepath, load_template, free_neighbours,
             free_diffuse ].

Lemma hoare_configure_target_fp (P : effect -> Prop) (a : args) src :
  (forall c, match c with Sed _ _ _ _ _ => False | _ => True end -> P (Engine c)) ->
  hoare P (fun fp => fp = match src_gamma a with
                          | Some _ => Some "norm"
                          | None => if free_norm a then Some "norm" else None
                          end)
        (configure_target a src).
Proof.
  intros HP; unfold configure_target.
  eapply hoare_bind with (R := fun fp => fp = match src_gamma a with
                                              | Some _ => Some "norm"
                                              | None => if free_norm a then Some "norm" else None
                                              end).
  - destruct (src_gamma a).
    + eapply hoare_bind; [apply hoare_engine, HP; exact I|]; intros _ _.
      eapply hoare_post; [apply hoare_ret|]; auto.
    + destruct (free_norm a).
      * eapply hoare_post; [apply hoare_ret|]; auto.
      * eapply hoare_bind; [apply hoare_engine, HP; exact I|]; intros _ _.
        eapply hoare_post; [apply hoare_ret|]; auto.
  - intros fp Hfp.
    eapply hoare_bind; [apply hoare_engine, HP; exact I|]; intros _ _.
    eapply hoare_bind; [apply hoare_engine, HP; exact I|]; intros _ _.
    eapply hoare_post; [apply hoare_ret|]; cbv beta; intros ? ->; exact Hfp.
Qed.

(** ** Extra X15 *)

(** X15: every [gta.sed] call [run_fit] makes happens only without
    [no_sed], names the target in its underscore-free form, writes
    [sed_emin_<int(emin)>_emax_<int(emax)>.fits], uses the bin edges
    [np.arange(log10(emin), log10(emax), 0.5)], passes the [free_radius]
    argument, and passes the same [free_pars] the target was configured
    with: ['norm'] when an index override or [free_norm] is given, [None]
    otherwise. *)
Theorem run_fit_sed_call lg fr w (a : args) :
  hoare (fun e => match e with
                  | Engine (Sed n o bins fp frad) =>
                      no_sed a = false /\
                      n = str_replace_char "_" " " (target_src a) /\
                      o = ("sed" ++ energy_tag a ++ ".fits") /\
                      bins = sed_loge_bins lg (emin a) (emax a) /\
                      fp = match src_gamma a with
                           | Some _ => Some "norm"
                           | None => if free_norm a then Some "norm" else None
                           end /\
                      frad = free_radius a
                  | _ => True
                  end)
        (fun _ => True) (run_fit lg fr w a).
Proof.
  unfold run_fit; cbv zeta.
  eapply hoare_bind with (R := fun _ => True); [repeat hp_step|]; intros [tmin tmax] _.
  eapply hoare_bind with (R := fun _ => True); [repeat hp_step|]; intros bp _.
  eapply hoare_bind; [apply hoare_setup; intros; exact I|]; intros _ _.
  do 7 (eapply hoare_bind with (R := fun _ => True); [repeat hp_step|intros ? _]).
  eapply hoare_bind; [apply hoare_configure_target_fp; intros [] Hc; try exact I; destruct Hc|].
  intros fp Hfp.
  do 5 (eapply hoare_bind with (R := fun _ => True); [repeat hp_step|intros ? _]).
  destruct (no_sed a) eqn:En; cbn [negb].
  - eapply hoare_post; [apply hoare_ret|]; auto.
  - apply hoare_engine; repeat split; auto.
Qed.

(** ** The configuration overlay: when it succeeds, and applied twice *)

Lemma str_app_nil_r (s : string) : (s ++ "")%string = s.
Proof. induction s as [|c s IH]; [reflexivity|]; exact (f_equal (String c) IH). Qed.

Lemma str_app_assoc (x y z : string) : ((x ++ y) ++ z)%string = (x ++ (y ++ z))%string.
Proof. induction x as [|c x IH]; [reflexivity|]; exact (f_equal (String c) IH). Qed.

Lemma list_ascii_of_string_app (x y : string) :
  list_ascii_of_string (x ++ y) = (list_ascii_of_string x ++ list_ascii_of_string y)%list.
Proof. induction x as [|c x IH]; [reflexivity|]; exact (f_equal (cons c) IH). Qed.

Lemma last_component_from_app acc (x y : string) :
  last_component_from acc (x ++ y) = last_component_from (last_component_from acc x) y.
Proof.
  revert acc; induction x as [|c x IH]; intros acc; simpl; [reflexivity|].
  destruct (Ascii.eqb c "/"%char); apply IH.
Qed.

Lemma last_component_from_no_slash acc (b : string) :
  Forall (fun c => c <> "/"%char) (list_ascii_of_string b) ->
  last_component_from acc b = (acc ++ b)%string.
Proof.
  revert acc; induction b as [|c b IH]; intros acc H; simpl.
  - symmetry; apply str_app_nil_r.
  - inversion H as [|? ? Hc Hb]; subst.
    rewrite (proj2 (Ascii.eqb_neq c "/"%char) Hc), IH by exact Hb.
    rewrite str_app_assoc; reflexivity.
Qed.

Lemma last_component_from_result acc (s : string) :
  Forall (fun c => c <> "/"%char) (list_ascii_of_string acc) ->
  Forall (fun c => c <> "/"%char) (list_ascii_of_string (last_component_from acc s)).
Proof.
  revert acc; induction s as [|c s IH]; intros acc H; simpl; [exact H|].
  destruct (Ascii.eqb c "/"%char) eqn:E; apply IH; [constructor|].
  rewrite list_ascii_of_string_app; apply Forall_app; split; [exact H|].
  constructor; [|constructor].
  intros ->; discriminate.
Qed.

Lemma str_last_char_inv (s : string) c :
  str_last_char s = Some c -> exists x, s = (x ++ String c "")%string.
Proof.
  induction s as [|c0 r IH]; [discriminate|].
  destruct r as [|c1 r'].
  - intros H; inversion H; exists ""; reflexivity.
  - intros H; change (str_last_char (String c1 r') = Some c) in H.
    destruct (IH H) as [x Hx]; exists (String c0 x); simpl; now rewrite Hx.
Qed.

Lemma str_last_char_None (s : string) : str_last_char s = None -> s = "".
Proof.
  induction s as [|c0 r IH]; [reflexivity|].
  destruct r as [|c1 r']; [discriminate|].
  intros H; change (str_last_char (String c1 r') = None) in H; apply IH in H; discriminate.
Qed.

(** [os.path.join(d, p.split('/')[-1]).split('/')[-1] == p.split('/')[-1]] *)
Lemma split_last_path_join (dp p : string) :
  split_last (path_join dp (split_last p)) = split_last p.
Proof.
  assert (Hb : Forall (fun c => c <> "/"%char) (list_ascii_of_string (split_last p)))
    by (apply last_component_from_result; constructor).
  set (b := split_last p) in *.
  assert (Hself : split_last b = b)
    by (unfold split_last; rewrite last_component_from_no_slash by exact Hb; reflexivity).
  unfold path_join.
  destruct (String.prefix "/" b); [exact Hself|].
  destruct (String.eqb_spec dp "") as [->|Hne]; [exact Hself|].
  destruct (str_last_char dp) as [c|] eqn:Ec.
  - destruct (Ascii.eqb_spec c "/"%char) as [->|Hc].
    + apply str_last_char_inv in Ec as [x ->].
      unfold split_last; rewrite !last_component_from_app; simpl.
      rewrite (last_component_from_no_slash _ _ Hb); reflexivity.
    + unfold split_last; rewrite last_component_from_app; simpl.
      rewrite (last_component_from_no_slash _ _ Hb); reflexivity.
  - apply str_last_char_None in Ec; contradiction.
Qed.

Lemma lk_is_section (c : config) s k v : lk c s k = Some v -> is_section c s.
Proof. unfold lk, is_section; destruct (c !! s) as [[d|y]|]; try discriminate; eauto. Qed.

Lemma section_eq (c c' : config) s :
  is_section c s -> is_section c' s -> (forall k, lk c s k = lk c' s k) -> c !! s = c' !! s.
Proof.
  intros [d Hd] [d' Hd'] H; rewrite Hd, Hd'; do 2 f_equal.
  apply map_eq; intros k; specialize (H k); unfold lk in H; rewrite Hd, Hd' in H; exact H.
Qed.

Lemma update_config_ok_intro (tmpl : config) a tmin tmax src :
  is_section tmpl "selection" -> is_section tmpl "data" -> is_section tmpl "model" ->
  (exists ev, lk tmpl "data" "evfile" = Some (YStr ev)) ->
  (exists sc, lk tmpl "data" "scfile" = Some (YStr sc)) ->
  exists cfg, update_config tmpl a tmin tmax src = inr cfg.
Proof.
  intros [ds Hs] [dd Hd] [dm Hm] [ev Hev] [sc Hsc].
  unfold lk in Hev, Hsc; rewrite Hd in Hev, Hsc.
  unfold update_config, set_key, get_key, append_key, yaml_split_last.
  destruct (xml_path a), (use_3FGL a);
  repeat (first [ progress unfold get_key, set_key | rewrite Hs | rewrite Hd | rewrite Hm | rewrite Hev | rewrite Hsc
                | rewrite lookup_insert_eq | rewrite lookup_insert_ne by discriminate ];
          lazy beta iota);
  eexists; reflexivity.
Qed.

(** ** Extra X16 *)

(** X16: the overlay of lines 88-101 goes through exactly when the template
    has [selection], [data] and [model] as mappings and its [data.evfile]
    and [data.scfile] are strings; otherwise one of the subscripts or the
    [.split] raises. *)
Theorem update_config_succeeds_iff (tmpl : config) a tmin tmax src :
  (exists cfg, update_config tmpl a tmin tmax src = inr cfg) <->
  (is_section tmpl "selection" /\ is_section tmpl "data" /\ is_section tmpl "model" /\
   (exists ev, lk tmpl "data" "evfile" = Some (YStr ev)) /\
   (exists sc, lk tmpl "data" "scfile" = Some (YStr sc))).
Proof.
  split.
  - intros [cfg H]; apply update_config_spec in H.
    destruct H as (Ss & Sd & Sm & _ & _ & _ & _ & _ & [ev [Hev _]] & [sc [Hsc _]] & _).
    repeat split; eauto.
  - intros (Ss & Sd & Sm & Hev & Hsc); apply update_config_ok_intro; assumption.
Qed.

(** ** Extra X17 *)

(** X17: the overlay is idempotent: applied with the same arguments to the
    configuration it produced, it returns that configuration unchanged
    (in particular the rewritten [evfile] and [scfile] keep their base
    names, and the catalog list is rebuilt from empty). *)
Theorem update_config_idempotent (tmpl : config) a tmin tmax src (cfg : config) :
  update_config tmpl a tmin tmax src = inr cfg ->
  update_config cfg a tmin tmax src = inr cfg.
Proof.
  intros H.
  pose proof (update_config_spec _ _ _ _ _ _ H)
    as (_ & _ & _ & E1 & E2 & E3 & E4 & E5 & [ev [_ Eev]] & [sc [_ Esc]] & Ecat & Eoth & Esec).
  destruct (update_config_ok_intro cfg a tmin tmax src) as [cfg' H'];
    [eapply lk_is_section; exact E1 | eapply lk_is_section; exact Eev
    | eapply lk_is_section; exact Ecat | eauto | eauto |].
  rewrite H'; f_equal.
  pose proof (update_config_spec _ _ _ _ _ _ H')
    as (S1 & S2 & S3 & F1 & F2 & F3 & F4 & F5 & [ev' [Gev Fev]] & [sc' [Gsc Fsc]] & Fcat & Foth & Fsec).
  rewrite Eev in Gev; rewrite Esc in Gsc.
  injection Gev as <-; injection Gsc as <-.
  rewrite split_last_path_join in Fev, Fsc.
  apply map_eq; intros s.
  assert (Hk : forall s', s' ∈ ["selection"; "data"; "model"] -> forall k, lk cfg' s' k = lk cfg s' k).
  { intros s' Hs' k.
    destruct (decide ((s', k) ∈ modified_keys)) as [Hm|Hm]; [|apply Foth; exact Hm].
    unfold modified_keys in Hm.
    repeat (apply elem_of_cons in Hm as [Hm|Hm];
            [injection Hm as -> ->; congruence|]).
    apply elem_of_nil in Hm; contradiction. }
  destruct (decide (s ∈ ["selection"; "data"; "model"])) as [Hs|Hs]; [|apply Fsec; exact Hs].
  apply section_eq; [| |apply Hk; exact Hs].
  - apply elem_of_cons in Hs as [->|Hs]; [eapply lk_is_section; exact F1|].
    apply elem_of_cons in Hs as [->|Hs]; [eapply lk_is_section; exact Fev|].
    apply elem_of_cons in Hs as [->|Hs]; [eapply lk_is_section; exact Fcat|].
    apply elem_of_nil in Hs; contradiction.
  - apply elem_of_cons in Hs as [->|Hs]; [exact S1|].
    apply elem_of_cons in Hs as [->|Hs]; [exact S2|].
    apply elem_of_cons in Hs as [->|Hs]; [exact S3|].
    apply elem_of_nil in Hs; contradiction.
Qed.

Lemma update_config_idempotent_witness :
  update_config scenario_template scenario_args (MJD_to_MET 55000) (MJD_to_MET 55010)
    "Crab Nebula" = inr scenario_config /\
  update_config scenario_config scenario_args (MJD_to_MET 55000) (MJD_to_MET 55010)
    "Crab Nebula" = inr scenario_config.
Proof.
  assert (H : update_config scenario_template scenario_args (MJD_to_MET 55000) (MJD_to_MET 55010)
                "Crab Nebula" = inr scenario_config) by (vm_compute; reflexivity).
  split; [exact H|].
  exact (update_config_idempotent _ _ _ _ _ _ H).
Defined.
